(** * waggle-dance: packet protocol, status mapper and the WaggleDanceMachine
    scheduler, embedded from the TypeScript sources.

    - [AgentPacket.ts]        : packet tags, the finishing set, [findFinishPacket]
    - [mapPacketToStatus.ts]  : [mapPacketTypeToStatus]
    - [WaggleDanceMachine.ts] : [isGoalReached], [findNodesWithNoIncomingEdges],
                                the [run] method with its [startFirstTask] closure
    - [TaskExecutor.ts]       : the class method [startFirstTask]

    JavaScript runs the asynchronous code of [run] as atomic blocks separated
    by [await]; each block is a function on an explicit machine state and the
    interleaving is a list of events. *)

From stdpp Require Import gmap strings list pretty.
From Stdlib Require Import ZArith Lia.

Open Scope string_scope.
Open Scope list_scope.

(* ===================================================================== *)
(** ** AgentPacket.ts *)
(* ===================================================================== *)

(** The string-literal union [AgentPacketType].  The first seven tags are
    [AgentPacketFinishedType]; the next fourteen are listed in the union of
    AgentPacket.ts; the last four are the chat-model / retriever lifecycle
    tags that the switch of [mapPacketTypeToStatus] names. *)
Module Ty.
Inductive AgentPacketType :=
| handleAgentEnd | done | error | handleChainError | handleLLMError
| handleRetrieverError | handleAgentError
| handleLLMStart | t | handleLLMEnd | handleChainEnd | handleChainStart
| handleToolEnd | handleToolStart | handleAgentAction | handleText
| requestHumanInput | starting | working | idle | handleToolError
| handleRetrieverStart | handleRetrieverEnd
| handleChatModelEnd | handleChatModelStart.

#[global] Instance AgentPacketType_eq_dec : EqDecision AgentPacketType.
Proof. solve_decision. Defined.
End Ty.
Export Ty (AgentPacketType).

Inductive Severity := warn | human | fatal.

#[global] Instance Severity_eq_dec : EqDecision Severity.
Proof. solve_decision. Defined.

(** Payloads typed [any], [Serialized], [AgentAction], [ChainValues] or
    [Error] are carried as text: no function below inspects them. *)
Definition any := string.

Module Packet.
Inductive AgentPacket :=
| handleLLMStart
| t (tok : string)
| handleLLMEnd (output : string)
| handleLLMError (err : any)
| handleChainEnd (outputs : any)
| handleChainError (err : any)
| handleChainStart
| handleToolEnd (output : string)
| handleToolError (err : any)
| handleToolStart (tool : any) (input : string)
| handleAgentAction (action : any)
| handleAgentEnd (value : string)
| handleText (text : string)
| handleRetrieverError (err : any)
| handleAgentError (err : any)
| done (value : string)
| error (severity : Severity) (message : string)
| requestHumanInput (reason : string)
| starting (nodeId : string)
| working (nodeId : string)
| idle (nodeId : string).

#[global] Instance AgentPacket_eq_dec : EqDecision AgentPacket.
Proof. solve_decision. Defined.

(** The [type] field. *)
Definition type (packet : AgentPacket) : AgentPacketType :=
  match packet with
  | handleLLMStart => Ty.handleLLMStart
  | t _ => Ty.t
  | handleLLMEnd _ => Ty.handleLLMEnd
  | handleLLMError _ => Ty.handleLLMError
  | handleChainEnd _ => Ty.handleChainEnd
  | handleChainError _ => Ty.handleChainError
  | handleChainStart => Ty.handleChainStart
  | handleToolEnd _ => Ty.handleToolEnd
  | handleToolError _ => Ty.handleToolError
  | handleToolStart _ _ => Ty.handleToolStart
  | handleAgentAction _ => Ty.handleAgentAction
  | handleAgentEnd _ => Ty.handleAgentEnd
  | handleText _ => Ty.handleText
  | handleRetrieverError _ => Ty.handleRetrieverError
  | handleAgentError _ => Ty.handleAgentError
  | done _ => Ty.done
  | error _ _ => Ty.error
  | requestHumanInput _ => Ty.requestHumanInput
  | starting _ => Ty.starting
  | working _ => Ty.working
  | idle _ => Ty.idle
  end.
End Packet.
Export Packet (AgentPacket).

Definition AgentPacketFinishedTypes : list AgentPacketType :=
  [ Ty.handleAgentEnd; Ty.done; Ty.error; Ty.handleChainError;
    Ty.handleLLMError; Ty.handleRetrieverError; Ty.handleAgentError ].

(** [agentPacketFinishedTypesSet.has(type)]. *)
Definition isAgentPacketFinishedType (type : AgentPacketType) : bool :=
  bool_decide (type ∈ AgentPacketFinishedTypes).

(** [Array.prototype.findLast]: the scan runs from the last index down. *)
Fixpoint findLast {A} (p : A → bool) (l : list A) : option A :=
  match l with
  | [] => None
  | x :: l' =>
      match findLast p l' with
      | Some y => Some y
      | None => if p x then Some x else None
      end
  end.

(** The callback's [try]/[catch] guards the read of [packet.type]; on a
    value of type [AgentPacket] that read cannot throw.  The substitute
    packet carries [new Error(...)], kept here by its message. *)
Definition findFinishPacket (packets : list AgentPacket) : AgentPacket :=
  match findLast (λ packet, isAgentPacketFinishedType (Packet.type packet)) packets with
  | Some packet => packet
  | None =>
      Packet.error fatal
        ("No result packet found in " +:+ pretty (length packets) +:+ " packets")
  end.

(* ===================================================================== *)
(** ** mapPacketToStatus.ts *)
(* ===================================================================== *)

Module TaskStatus.
Inductive TaskStatus := idle | working | wait | done | error.

#[global] Instance TaskStatus_eq_dec : EqDecision TaskStatus.
Proof. solve_decision. Defined.
End TaskStatus.
Export TaskStatus (TaskStatus).

(** The switch, case groups in source order; [None] is [undefined].  The
    second group returning [working] (after [requestHumanInput]) repeats
    four labels of the first and is never reached. *)
Definition mapPacketTypeToStatus (packetType : option AgentPacketType) : TaskStatus :=
  match packetType with
  | Some Ty.done | Some Ty.handleAgentEnd | Some Ty.handleChainEnd =>
      TaskStatus.done
  | Some Ty.error | Some Ty.handleLLMError | Some Ty.handleChainError
  | Some Ty.handleToolError | Some Ty.handleAgentError =>
      TaskStatus.error
  | Some Ty.working | Some Ty.t | Some Ty.handleLLMStart
  | Some Ty.handleChainStart | Some Ty.handleToolStart
  | Some Ty.handleAgentAction | Some Ty.handleRetrieverError
  | Some Ty.handleText | Some Ty.handleToolEnd | Some Ty.starting
  | Some Ty.handleLLMEnd | Some Ty.handleRetrieverStart
  | Some Ty.handleRetrieverEnd | Some Ty.handleChatModelEnd
  | Some Ty.handleChatModelStart =>
      TaskStatus.working
  | Some Ty.requestHumanInput =>
      TaskStatus.wait
  | Some Ty.idle | None =>
      TaskStatus.idle
  end.

(* ===================================================================== *)
(** ** DAG.ts (declarations used by the machine) *)
(* ===================================================================== *)

(** [new DAGNodeClass(id, name, act, context)], [new DAGEdgeClass(sId, tId)]
    and [new DAG(nodes, edges)], as the machine constructs and reads them. *)
Module Graph.
Record DAGNode := DAGNodeClass
  { id : string; name : string; act : string; context : string }.
Record DAGEdge := DAGEdgeClass { sId : string; tId : string }.
Record DAG := mkDAG { nodes : list DAGNode; edges : list DAGEdge }.

#[global] Instance DAGNode_eq_dec : EqDecision DAGNode.
Proof. solve_decision. Defined.
#[global] Instance DAGEdge_eq_dec : EqDecision DAGEdge.
Proof. solve_decision. Defined.
#[global] Instance DAG_eq_dec : EqDecision DAG.
Proof. solve_decision. Defined.
End Graph.
Export Graph (DAGNode, DAGEdge, DAG, DAGNodeClass, DAGEdgeClass, mkDAG).

(** [BaseResultType] as [startFirstTask] observes it: falsy or not, a
    string or not. *)
Inductive BaseResultType :=
| ResUndefined
| ResString (s : string)
| ResObject (json : any).

#[global] Instance BaseResultType_eq_dec : EqDecision BaseResultType.
Proof. solve_decision. Defined.

(** [!result]: [undefined] and the empty string are falsy. *)
Definition falsy (result : BaseResultType) : bool :=
  match result with
  | ResUndefined => true
  | ResString s => bool_decide (s = "")
  | ResObject _ => false
  end.

(** [Array.prototype.indexOf]: first index holding the element, else -1. *)
Fixpoint indexOf {A} `{EqDecision A} (l : list A) (x : A) : Z :=
  match l with
  | [] => (-1)%Z
  | y :: l' =>
      if decide (y = x) then 0%Z
      else let r := indexOf l' x in if (r <? 0)%Z then (-1)%Z else (r + 1)%Z
  end.

(** [arr.splice(start, 1)], the array left behind: a negative [start]
    counts from the end. *)
Definition splice1 {A} (l : list A) (start : Z) : list A :=
  let len := Z.of_nat (length l) in
  let from := if (start <? 0)%Z then Z.max (len + start) 0 else Z.min start len in
  delete (Z.to_nat from) l.

(** A pending call settles: its first entry leaves the pending list; [None]
    when no such call is pending. *)
Fixpoint settle {A} `{EqDecision A} (x : A) (l : list A) : option (list A) :=
  match l with
  | [] => None
  | y :: l' => if decide (y = x) then Some l' else (y ::.) <$> settle x l'
  end.

(** [arr.find(p)]. *)
Definition find_first {A} (p : A → bool) (l : list A) : option A := List.find p l.

(* ===================================================================== *)
(** ** WaggleDanceMachine.ts *)
(* ===================================================================== *)

Module WaggleDanceMachine.
Import Graph.

Definition isGoalReached (dag : DAG) (completedTasks : gset string) : bool :=
  forallb (λ node, bool_decide (id node ∈ completedTasks)) (nodes dag).

Definition rootPlanId : string := "👸🐝".

Definition initialNodes (goal : string) : list DAGNode :=
  [ DAGNodeClass rootPlanId "👸🐝 Queen Bee" "Planning how to achieve your goal" goal ].

Definition initialEdges : list DAGEdge := [].

(** Both [for] loops of the source, as left folds over the arrays. *)
Definition findNodesWithNoIncomingEdges (dag : DAG) : list DAGNode :=
  let nodesWithIncomingEdges : gset string :=
    foldl (λ acc edge, acc ∪ {[ tId edge ]}) ∅ (edges dag) in
  foldl (λ acc node,
           if bool_decide (id node ∈ nodesWithIncomingEdges) then acc
           else acc ++ [node])
        [] (nodes dag).

(** Lines 199-204: the root is prepended, the hook-up edges appended. *)
Definition hookup (goal : string) (dag : DAG) : DAG :=
  let initNodes := initialNodes goal in
  let hookupEdges :=
    map (λ node, DAGEdgeClass rootPlanId (id node)) (findNodesWithNoIncomingEdges dag) in
  mkDAG (initNodes ++ nodes dag) (initialEdges ++ edges dag ++ hookupEdges).

(** ["not started" | "started" | "done" | "error"]. *)
Inductive FirstTaskState := not_started | started | fts_done | fts_error.

#[global] Instance FirstTaskState_eq_dec : EqDecision FirstTaskState.
Proof. solve_decision. Defined.

Record OptimisticFirstTaskState := mkOFTS
  { firstTaskState : FirstTaskState; taskId : option string }.

(** How the promise returned by [run] settled. *)
Inductive RunOutcome :=
| Returned                        (* return { results: taskResults, completedTasks } *)
| ReturnedError (error : string)  (* return error as Error *)
| Thrown (message : string).      (* throw new Error(message) *)

Inductive Phase := Planning | Scheduling | Finished (outcome : RunOutcome).

(** The variables closed over by [run] and its callbacks, with a log of
    the [sendChainPacket] calls, the [executeTask] calls that have not
    settled yet, and the number of [planTasks] calls made. *)
Record State := mkState
  { goal : string;
    dag : option DAG;
    completedTasks : gset string;
    taskResults : gmap string BaseResultType;
    optimisticFirstTaskState : OptimisticFirstTaskState;
    toDoNodes : list DAGNode;
    aborted : bool;
    isDonePlanning : bool;
    sent : list (AgentPacket * DAGNode);
    executing : list DAGNode;
    firstExecuting : list (DAGNode * DAG);
    planTasksCalls : nat;
    phase : Phase }.

Definition set_dag (v : option DAG) (s : State) : State :=
  mkState (goal s) v (completedTasks s) (taskResults s) (optimisticFirstTaskState s)
          (toDoNodes s) (aborted s) (isDonePlanning s) (sent s) (executing s)
          (firstExecuting s) (planTasksCalls s) (phase s).
Definition set_completedTasks (v : gset string) (s : State) : State :=
  mkState (goal s) (dag s) v (taskResults s) (optimisticFirstTaskState s)
          (toDoNodes s) (aborted s) (isDonePlanning s) (sent s) (executing s)
          (firstExecuting s) (planTasksCalls s) (phase s).
Definition set_taskResults (v : gmap string BaseResultType) (s : State) : State :=
  mkState (goal s) (dag s) (completedTasks s) v (optimisticFirstTaskState s)
          (toDoNodes s) (aborted s) (isDonePlanning s) (sent s) (executing s)
          (firstExecuting s) (planTasksCalls s) (phase s).
Definition set_optimisticFirstTaskState (v : OptimisticFirstTaskState) (s : State) : State :=
  mkState (goal s) (dag s) (completedTasks s) (taskResults s) v
          (toDoNodes s) (aborted s) (isDonePlanning s) (sent s) (executing s)
          (firstExecuting s) (planTasksCalls s) (phase s).
Definition set_toDoNodes (v : list DAGNode) (s : State) : State :=
  mkState (goal s) (dag s) (completedTasks s) (taskResults s) (optimisticFirstTaskState s)
          v (aborted s) (isDonePlanning s) (sent s) (executing s)
          (firstExecuting s) (planTasksCalls s) (phase s).
Definition set_aborted (v : bool) (s : State) : State :=
  mkState (goal s) (dag s) (completedTasks s) (taskResults s) (optimisticFirstTaskState s)
          (toDoNodes s) v (isDonePlanning s) (sent s) (executing s)
          (firstExecuting s) (planTasksCalls s) (phase s).
Definition set_isDonePlanning (v : bool) (s : State) : State :=
  mkState (goal s) (dag s) (completedTasks s) (taskResults s) (optimisticFirstTaskState s)
          (toDoNodes s) (aborted s) v (sent s) (executing s)
          (firstExecuting s) (planTasksCalls s) (phase s).
Definition set_sent (v : list (AgentPacket * DAGNode)) (s : State) : State :=
  mkState (goal s) (dag s) (completedTasks s) (taskResults s) (optimisticFirstTaskState s)
          (toDoNodes s) (aborted s) (isDonePlanning s) v (executing s)
          (firstExecuting s) (planTasksCalls s) (phase s).
Definition set_executing (v : list DAGNode) (s : State) : State :=
  mkState (goal s) (dag s) (completedTasks s) (taskResults s) (optimisticFirstTaskState s)
          (toDoNodes s) (aborted s) (isDonePlanning s) (sent s) v
          (firstExecuting s) (planTasksCalls s) (phase s).
Definition set_firstExecuting (v : list (DAGNode * DAG)) (s : State) : State :=
  mkState (goal s) (dag s) (completedTasks s) (taskResults s) (optimisticFirstTaskState s)
          (toDoNodes s) (aborted s) (isDonePlanning s) (sent s) (executing s)
          v (planTasksCalls s) (phase s).
Definition set_planTasksCalls (v : nat) (s : State) : State :=
  mkState (goal s) (dag s) (completedTasks s) (taskResults s) (optimisticFirstTaskState s)
          (toDoNodes s) (aborted s) (isDonePlanning s) (sent s) (executing s)
          (firstExecuting s) v (phase s).
Definition set_phase (v : Phase) (s : State) : State :=
  mkState (goal s) (dag s) (completedTasks s) (taskResults s) (optimisticFirstTaskState s)
          (toDoNodes s) (aborted s) (isDonePlanning s) (sent s) (executing s)
          (firstExecuting s) (planTasksCalls s) v.

(** [sendChainPacket(packet, node)]. *)
Definition sendChainPacket (packet : AgentPacket) (node : DAGNode) (s : State) : State :=
  set_sent (sent s ++ [(packet, node)]) s.

(** [optimisticFirstTaskState.firstTaskState = v]. *)
Definition set_firstTaskState (v : FirstTaskState) (s : State) : State :=
  set_optimisticFirstTaskState
    (mkOFTS v (taskId (optimisticFirstTaskState s))) s.

(** *** The [startFirstTask] closure of [run] (lines 129-185) *)

(** Up to the [await executeTask(...)], or to the end when the signal is
    already aborted. *)
Definition startFirstTask (task : DAGNode) (dag : DAG) (s : State) : State :=
  let s := set_firstTaskState started s in
  let s := set_optimisticFirstTaskState (mkOFTS started (Some (id task))) s in
  let s := set_completedTasks (completedTasks s ∪ {[ id task ]}) s in
  if negb (aborted s) then
    set_firstExecuting (firstExecuting s ++ [(task, dag)]) s
  else
    set_firstTaskState fts_error s.

(** [executeTask] threw: the [catch] block. *)
Definition startFirstTask_rejected (task : DAGNode) (error : string) (s : State) : State :=
  let s := sendChainPacket (Packet.error warn error) task s in
  set_firstTaskState fts_error s.

(** [executeTask] returned [result]: the code after the [try].  When no
    node carries the task's id the closure throws after setting the state;
    that rejection belongs to the caller of [startFirstTask]. *)
Definition startFirstTask_resolved
    (task : DAGNode) (dag : DAG) (result : BaseResultType) (s : State) : State :=
  let s := set_taskResults (<[ id task := result ]> (taskResults s)) s in
  match find_first (λ n, bool_decide (id task = id n)) (nodes dag) with
  | None => set_firstTaskState fts_error s
  | Some node =>
      if falsy result then
        set_firstTaskState fts_error
          (sendChainPacket (Packet.error warn "no task result") node s)
      else
        let s := match result with
                 | ResString r => sendChainPacket (Packet.done r) node s
                 | _ => s
                 end in
        set_firstTaskState fts_done s
  end.

(** *** Planning (lines 186-224) *)

(** The synchronous prefix of [run]: either the resume branch, or the call
    of [planTasks]. *)
Definition run (goal : string) (initDAG : DAG) (isDonePlanning : bool)
    (abortedAtEntry : bool) : State :=
  let s := mkState goal None {[ rootPlanId ]} ∅ (mkOFTS not_started None)
                   [] abortedAtEntry isDonePlanning [] [] [] 0 Planning in
  if bool_decide (0 < length (edges initDAG)) && isDonePlanning then
    let s := set_dag (Some initDAG) s in
    set_phase Scheduling (set_toDoNodes (nodes initDAG) s)
  else
    let s := set_isDonePlanning false s in
    set_planTasksCalls (S (planTasksCalls s)) s.

(** [planTasks] returned the plan graph. *)
Definition planTasks_resolved (plan : DAG) (s : State) : State :=
  let dag := hookup (goal s) plan in
  let s := set_dag (Some dag) s in
  match find_first (λ n, bool_decide (id n = rootPlanId)) (nodes dag) with
  | None => set_phase (Finished (Thrown "no root node")) s
  | Some rootNode =>
      let s := sendChainPacket
                 (Packet.done ("Planned an execution graph with "
                               +:+ pretty (length (nodes dag)) +:+ " tasks and "
                               +:+ pretty (length (edges dag)) +:+ " edges."))
                 rootNode s in
      let s := set_isDonePlanning true s in
      set_phase Scheduling (set_toDoNodes (nodes dag) s)
  end.

(** [planTasks] threw. *)
Definition planTasks_rejected (error : string) (s : State) : State :=
  match head (initialNodes (goal s)) with
  | Some initNode =>
      set_phase (Finished (ReturnedError error))
                (sendChainPacket (Packet.error fatal error) initNode s)
  | None => set_phase (Finished (Thrown "no initial node")) s
  end.

(** *** The scheduling loop (lines 227-286) *)

Inductive LoopOutcome :=
| LoopExit                                   (* the [while] condition is false *)
| LoopThrow (message : string)
| LoopSleep                                  (* [await sleep(1000); continue] *)
| LoopDispatch (task : DAGNode) (toDoNodes' : list DAGNode).

(** The nodes of [pendingTasks] all of whose incoming edges have a
    completed source. *)
Definition pendingCurrentDagLayerTasks
    (dag : DAG) (completedTasks : gset string) (pendingTasks : list DAGNode)
    : list DAGNode :=
  List.filter
    (λ task,
       forallb (λ edge, bool_decide (sId edge ∈ completedTasks))
               (List.filter (λ edge, bool_decide (tId edge = id task)) (edges dag)))
    pendingTasks.

(** One evaluation of the [while] condition followed, when it holds, by
    one pass through the body. *)
Definition loop_iteration
    (dag : DAG) (completedTasks : gset string) (toDoNodes : list DAGNode)
    (firstTaskState : FirstTaskState) (aborted : bool) : LoopOutcome :=
  if isGoalReached dag completedTasks then LoopExit
  else if aborted then LoopThrow "Signal aborted"
  else
    let pendingTasks :=
      List.filter (λ node, negb (bool_decide (id node ∈ completedTasks))) toDoNodes in
    if bool_decide (length pendingTasks = 0) || bool_decide (firstTaskState = started)
    then LoopSleep
    else
      let ready := pendingCurrentDagLayerTasks dag completedTasks pendingTasks in
      if bool_decide (length ready = 0)
         && (bool_decide (length pendingTasks = 0) && bool_decide (length toDoNodes = 0))
      then LoopThrow "No pending tasks, and no executable tasks, but goal not reached."
      else
        match head ready with
        | None => LoopThrow "no task"
        | Some task => LoopDispatch task (splice1 toDoNodes (indexOf toDoNodes task))
        end.

(** The dispatched async closure after [executeTask] returned. *)
Definition task_resolved (task : DAGNode) (result : BaseResultType) (s : State) : State :=
  let s := set_taskResults (<[ id task := result ]> (taskResults s)) s in
  set_completedTasks (completedTasks s ∪ {[ id task ]}) s.

(** The dispatched async closure after [executeTask] threw: the [catch]. *)
Definition task_rejected (task : DAGNode) (error : string) (s : State) : State :=
  sendChainPacket (Packet.error warn error) task s.

(** One loop iteration on the machine state. *)
Definition loop_step (d : DAG) (s : State) : State :=
  match loop_iteration d (completedTasks s) (toDoNodes s)
                       (firstTaskState (optimisticFirstTaskState s)) (aborted s) with
  | LoopExit => set_phase (Finished Returned) s
  | LoopThrow message => set_phase (Finished (Thrown message)) s
  | LoopSleep => s
  | LoopDispatch task toDoNodes' =>
      set_executing (executing s ++ [task]) (set_toDoNodes toDoNodes' s)
  end.

(** *** Interleavings *)

(** What can happen next: the abort signal fires; the planner uses one of
    its callbacks, returns or throws; the loop runs an iteration; a pending
    [executeTask] call settles.  [planTasks] and [executeTask] are external:
    they appear through these events only, and are taken to leave
    [completedTasks] and [taskResults] alone.  Event lists cover every
    interleaving the event loop can produce, and some it cannot (a callback
    between two iterations that do not sleep): what holds for all lists
    holds for all runs. *)
Inductive Event :=
| EvAbort
| EvUpdateTaskState (state : FirstTaskState)
| EvStartFirstTask (task : DAGNode) (dag : DAG)
| EvFirstTaskResolved (task : DAGNode) (dag : DAG) (result : BaseResultType)
| EvFirstTaskRejected (task : DAGNode) (dag : DAG) (error : string)
| EvPlanResolved (plan : DAG)
| EvPlanRejected (error : string)
| EvLoop
| EvTaskResolved (task : DAGNode) (result : BaseResultType)
| EvTaskRejected (task : DAGNode) (error : string).

Definition is_planning (s : State) : bool :=
  match phase s with Planning => true | _ => false end.

(** [None] when the event cannot happen in [s]: planner events need a
    running planner, a loop iteration needs the loop to be running, and a
    call can only settle while it is pending.  [updateTaskState] accepts
    the three states of its parameter type. *)
Definition apply_event (ev : Event) (s : State) : option State :=
  match ev with
  | EvAbort => Some (set_aborted true s)
  | EvUpdateTaskState state =>
      if is_planning s && negb (bool_decide (state = fts_error))
      then Some (set_firstTaskState state s) else None
  | EvStartFirstTask task d =>
      if is_planning s then Some (startFirstTask task d s) else None
  | EvFirstTaskResolved task d result =>
      s' ← (λ l, set_firstExecuting l s) <$> settle (task, d) (firstExecuting s);
      Some (startFirstTask_resolved task d result s')
  | EvFirstTaskRejected task d error =>
      s' ← (λ l, set_firstExecuting l s) <$> settle (task, d) (firstExecuting s);
      Some (startFirstTask_rejected task error s')
  | EvPlanResolved plan =>
      if is_planning s then Some (planTasks_resolved plan s) else None
  | EvPlanRejected error =>
      if is_planning s then Some (planTasks_rejected error s) else None
  | EvLoop =>
      match phase s, dag s with
      | Scheduling, Some d => Some (loop_step d s)
      | _, _ => None
      end
  | EvTaskResolved task result =>
      s' ← (λ l, set_executing l s) <$> settle task (executing s);
      Some (task_resolved task result s')
  | EvTaskRejected task error =>
      s' ← (λ l, set_executing l s) <$> settle task (executing s);
      Some (task_rejected task error s')
  end.

Fixpoint run_events (evs : list Event) (s : State) : option State :=
  match evs with
  | [] => Some s
  | ev :: evs' => s' ← apply_event ev s; run_events evs' s'
  end.

End WaggleDanceMachine.

(* ===================================================================== *)
(** ** TaskExecutor.ts *)
(* ===================================================================== *)

Module TaskExecutor.
Import Graph.

(** The private fields that [startFirstTask] touches, with logs of the
    calls made to the injected callbacks and the pending [executeTask]
    calls.  Here [executeTask] returns an [AgentPacket]. *)
Record State := mkState
  { completedTasks : gset string;
    aborted : bool;                               (* abortController.signal.aborted *)
    injected : list (AgentPacket * DAGNode);      (* injectAgentPacket calls *)
    resolvedFirstTask : list AgentPacket;         (* resolveFirstTask calls *)
    rejectedFirstTask : list string;              (* rejectFirstTask calls *)
    executing : list (DAGNode * DAG) }.

Definition injectAgentPacket (packet : AgentPacket) (node : DAGNode) (s : State) : State :=
  mkState (completedTasks s) (aborted s) (injected s ++ [(packet, node)])
          (resolvedFirstTask s) (rejectedFirstTask s) (executing s).

Definition resolveFirstTask (value : AgentPacket) (s : State) : State :=
  mkState (completedTasks s) (aborted s) (injected s)
          (resolvedFirstTask s ++ [value]) (rejectedFirstTask s) (executing s).

Definition rejectFirstTask (reason : string) (s : State) : State :=
  mkState (completedTasks s) (aborted s) (injected s)
          (resolvedFirstTask s) (rejectedFirstTask s ++ [reason]) (executing s).

(** [this.abortController.abort()]. *)
Definition abort (s : State) : State :=
  mkState (completedTasks s) true (injected s)
          (resolvedFirstTask s) (rejectedFirstTask s) (executing s).

(** Up to the [await executeTask(...)], or through the [else] branch. *)
Definition startFirstTask (task : DAGNode) (dag : DAG) (s : State) : State :=
  let s := mkState (completedTasks s ∪ {[ id task ]}) (aborted s) (injected s)
                   (resolvedFirstTask s) (rejectedFirstTask s) (executing s) in
  if negb (aborted s) then
    mkState (completedTasks s) (aborted s) (injected s)
            (resolvedFirstTask s) (rejectedFirstTask s) (executing s ++ [(task, dag)])
  else
    abort (rejectFirstTask "Signal aborted" s).

(** [executeTask] returned [result]: the rest of the [try] block. *)
Definition startFirstTask_resolved (task : DAGNode) (result : AgentPacket) (s : State) : State :=
  injectAgentPacket result task (resolveFirstTask result s).

(** [executeTask] threw an error with this message: the [catch] block. *)
Definition startFirstTask_rejected (task : DAGNode) (message : string) (s : State) : State :=
  abort (rejectFirstTask message
           (injectAgentPacket (Packet.error warn message) task s)).

Inductive Event :=
| EvAbort
| EvStartFirstTask (task : DAGNode) (dag : DAG)
| EvFirstTaskResolved (task : DAGNode) (dag : DAG) (result : AgentPacket)
| EvFirstTaskRejected (task : DAGNode) (dag : DAG) (message : string).

Definition set_executing (l : list (DAGNode * DAG)) (s : State) : State :=
  mkState (completedTasks s) (aborted s) (injected s)
          (resolvedFirstTask s) (rejectedFirstTask s) l.

Definition apply_event (ev : Event) (s : State) : option State :=
  match ev with
  | EvAbort => Some (abort s)
  | EvStartFirstTask task d => Some (startFirstTask task d s)
  | EvFirstTaskResolved task d result =>
      s' ← (λ l, set_executing l s) <$> settle (task, d) (executing s);
      Some (startFirstTask_resolved task result s')
  | EvFirstTaskRejected task d message =>
      s' ← (λ l, set_executing l s) <$> settle (task, d) (executing s);
      Some (startFirstTask_rejected task message s')
  end.

Fixpoint run_events (evs : list Event) (s : State) : option State :=
  match evs with
  | [] => Some s
  | ev :: evs' => s' ← apply_event ev s; run_events evs' s'
  end.

End TaskExecutor.

(* ===================================================================== *)
(** ** AgentPacket.ts: [display] *)
(* ===================================================================== *)

(** The string literal behind each tag of [AgentPacketType]. *)
Definition tag_name (type : AgentPacketType) : string :=
  match type with
  | Ty.handleAgentEnd => "handleAgentEnd"
  | Ty.done => "done"
  | Ty.error => "error"
  | Ty.handleChainError => "handleChainError"
  | Ty.handleLLMError => "handleLLMError"
  | Ty.handleRetrieverError => "handleRetrieverError"
  | Ty.handleAgentError => "handleAgentError"
  | Ty.handleLLMStart => "handleLLMStart"
  | Ty.t => "t"
  | Ty.handleLLMEnd => "handleLLMEnd"
  | Ty.handleChainEnd => "handleChainEnd"
  | Ty.handleChainStart => "handleChainStart"
  | Ty.handleToolEnd => "handleToolEnd"
  | Ty.handleToolStart => "handleToolStart"
  | Ty.handleAgentAction => "handleAgentAction"
  | Ty.handleText => "handleText"
  | Ty.requestHumanInput => "requestHumanInput"
  | Ty.starting => "starting"
  | Ty.working => "working"
  | Ty.idle => "idle"
  | Ty.handleToolError => "handleToolError"
  | Ty.handleRetrieverStart => "handleRetrieverStart"
  | Ty.handleRetrieverEnd => "handleRetrieverEnd"
  | Ty.handleChatModelEnd => "handleChatModelEnd"
  | Ty.handleChatModelStart => "handleChatModelStart"
  end.

Section Display.
(** [action.tool], the field of langchain's [AgentAction] that [display]
    reads; the action itself is carried as text. *)
Variable tool : any → string.

(** [display]: [None] is [null]; the [default] case returns [packet.type]. *)
Definition display (packet : AgentPacket) : option string :=
  match packet with
  | Packet.handleToolStart _ _ => None
  | Packet.handleAgentAction action => Some (tool action)
  | Packet.handleLLMStart => None
  | Packet.handleToolEnd _ => None
  | _ => Some (tag_name (Packet.type packet))
  end.
End Display.

(* ===================================================================== *)
(** ** GoalPromptInput.tsx, GoalTabs.tsx, pages/goal/[slug].tsx *)
(* ===================================================================== *)

(** A JavaScript string is a sequence of UTF-16 code units; [length],
    [slice] and [trim] count and cut code units. *)
Definition JsString := list N.

Definition js (s : string) : JsString :=
  map (λ a, Ascii.N_of_ascii a) (String.list_ascii_of_string s).

(** The updater passed to [setCurrentPromptIndex] and
    [setCurrentPlaceholderIndex] every five seconds, for an array of
    [len] entries ([examplePrompts.length], [placeholders.length]). *)
Definition nextIndex (len prevIndex : nat) : nat :=
  if bool_decide (len ≤ prevIndex + 1)%nat then 0%nat else (prevIndex + 1)%nat.


(** [goalList.findIndex((goal) => goal.id === selectedGoal?.id)] of
    [GoalTabs]: the goals by their ids, [None] for an undefined
    [selectedGoal?.id]; -1 when no goal matches. *)
Fixpoint findIndex {A} (p : A → bool) (l : list A) : Z :=
  match l with
  | [] => (-1)%Z
  | x :: l' =>
      if p x then 0%Z
      else let r := findIndex p l' in if (r <? 0)%Z then (-1)%Z else (r + 1)%Z
  end.

Definition currentTabIndex (goalIds : list string) (selectedGoalId : option string) : Z :=
  findIndex (λ goalId, bool_decide (Some goalId = selectedGoalId)) goalIds.

(** ECMAScript's WhiteSpace and LineTerminator code points, all of them
    single code units: what [String.prototype.trim] strips. *)
Definition isWhiteSpace (c : N) : bool :=
  bool_decide (c ∈ [9; 10; 11; 12; 13; 32; 160; 5760; 8232; 8233; 8239; 8287; 12288; 65279]%N)
  || ((8192 <=? c)%N && (c <=? 8202)%N).

Fixpoint trimStart (s : JsString) : JsString :=
  match s with
  | c :: s' => if isWhiteSpace c then trimStart s' else s
  | [] => []
  end.

Definition trim (s : JsString) : JsString :=
  reverse (trimStart (reverse (trimStart s))).

(** A string of white space only. *)
Definition blank (s : JsString) : Prop := Forall (λ c, isWhiteSpace c = true) s.

(** [router.query.slug]: absent, a string, or an array of strings. *)
Inductive Slug := SlugUndefined | SlugString (s : JsString) | SlugArray (l : list JsString).

(** [cleanedSlug] of pages/goal/[slug].tsx; [None] is [undefined]. *)
Definition cleanedSlug (slug : Slug) : option JsString :=
  match slug with
  | SlugString s => Some s
  | SlugArray l => head l
  | SlugUndefined => None
  end.

(** The fields of the selected goal that the page reads. *)
Record SelectedGoal := mkSelectedGoal
  { executionsLength : option nat;  (* selectedGoal.executions?.length *)
    userId : JsString }.

Inductive PageState := input | graph.

(** A JavaScript value as far as [??] and [||] look at it. *)
Inductive JsValue := JsUndefined | JsNumber (n : nat) | JsBoolean (b : bool).

(** [a ?? b]. *)
Definition nullish (a b : JsValue) : JsValue :=
  match a with JsUndefined => b | _ => a end.

Definition truthy (v : JsValue) : bool :=
  match v with
  | JsUndefined => false
  | JsNumber n => negb (bool_decide (n = 0))
  | JsBoolean b => b
  end.

(** [state] of pages/goal/[slug].tsx.  A comparison binds tighter than
    [??]: the source's [x ?? 0 > 0] is [x ?? (0 > 0)] and its
    [y ?? 0 !== 0] is [y ?? (0 !== 0)]. *)
Definition pageState (cleanedSlug : option JsString) (selectedGoal : option SelectedGoal)
    : PageState :=
  if bool_decide (cleanedSlug = Some (js "")) || bool_decide (cleanedSlug = Some (js "/"))
  then input
  else
    let executionsLen :=
      match selectedGoal with
      | Some g => match executionsLength g with
                  | Some n => JsNumber n
                  | None => JsUndefined
                  end
      | None => JsUndefined
      end in
    let userIdLen :=
      match selectedGoal with
      | Some g => JsNumber (length (trim (userId g)))
      | None => JsUndefined
      end in
    if truthy (nullish executionsLen (JsBoolean (bool_decide (0 < 0)%nat)))
       || truthy (nullish userIdLen (JsBoolean (negb (bool_decide (0 = 0)%nat))))
    then graph else input.

(* ===================================================================== *)
(** ** The specification's vocabulary *)
(* ===================================================================== *)

(** The closed finishing set, tag by tag, as the specification of
    [findFinishPacket] lists it. *)
Definition finishing_tag (type : AgentPacketType) : Prop :=
  type = Ty.handleAgentEnd ∨ type = Ty.done ∨ type = Ty.error
  ∨ type = Ty.handleChainError ∨ type = Ty.handleLLMError
  ∨ type = Ty.handleRetrieverError ∨ type = Ty.handleAgentError.

Definition finishing (packet : AgentPacket) : Prop :=
  finishing_tag (Packet.type packet).

(** The table of the specification: terminal success to [done], terminal
    failure to [error], [requestHumanInput] to [wait], [idle] or no tag to
    [idle], every other tag to [working]. *)
Definition status_table (packetType : option AgentPacketType) : TaskStatus :=
  match packetType with
  | None | Some Ty.idle => TaskStatus.idle
  | Some Ty.done | Some Ty.handleAgentEnd | Some Ty.handleChainEnd => TaskStatus.done
  | Some Ty.error | Some Ty.handleLLMError | Some Ty.handleChainError
  | Some Ty.handleToolError | Some Ty.handleAgentError
  | Some Ty.handleRetrieverError => TaskStatus.error
  | Some Ty.requestHumanInput => TaskStatus.wait
  | Some _ => TaskStatus.working
  end.

(* ===================================================================== *)
(** ** Derived notions and sample runs *)
(* ===================================================================== *)

Module Scenarios.
Import Graph WaggleDanceMachine.

(** "No edge has the node as target", read off the edge list. *)
Definition no_incoming (plan : DAG) (node : DAGNode) : bool :=
  forallb (λ edge, negb (bool_decide (tId edge = id node))) (edges plan).

(** No execution that could write a result for key [k] is pending, and
    the signal is aborted. *)
Definition quiet (k : string) (s : State) : Prop :=
  aborted s = true
  ∧ Forall (λ n, id n ≠ k) (executing s)
  ∧ Forall (λ nd, id (fst nd) ≠ k) (firstExecuting s).

(** A plan with task [nodeA] and its dependent [nodeB]. *)
Definition nodeA : DAGNode := DAGNodeClass "1-0" "A" "research" "ctx".
Definition nodeB : DAGNode := DAGNodeClass "1-1" "B" "write" "ctx".
Definition planAB : DAG := mkDAG [nodeA; nodeB] [DAGEdgeClass "1-0" "1-1"].
Definition emptyDAG : DAG := mkDAG [] [].

(** The machine right after planning returned [planAB]. *)
Definition planned : State :=
  planTasks_resolved planAB (run "goal" emptyDAG false false).

(** A graph with a node and no edge, marked as planned. *)
Definition loneNode : DAG := mkDAG [nodeA] [].

(** The machine after the planner started the first task on [nodeA], the
    task succeeded, and planning returned [planAB]. *)
Definition first_done_planned : State :=
  planTasks_resolved planAB
    (startFirstTask_resolved nodeA planAB (ResString "ok")
       (set_firstExecuting []
          (startFirstTask nodeA planAB (run "goal" emptyDAG false false)))).

(** The machine with the first task on [nodeA] still executing when
    planning returned: every predecessor of [nodeB] is in [completedTasks],
    yet the loop sleeps. *)
Definition started_planned : State :=
  planTasks_resolved planAB
    (startFirstTask nodeA planAB (run "goal" emptyDAG false false)).

(** ... and after the abort signal was set while the loop slept. *)
Definition started_aborted : State := set_aborted true started_planned.

(** A plan with the single task [nodeA]: the machine after planning, after
    the loop dispatched [nodeA], and after that execution failed. *)
Definition planA : DAG := mkDAG [nodeA] [].
Definition plannedA : State :=
  planTasks_resolved planA (run "goal" emptyDAG false false).
Definition dispatchedA : State := loop_step (hookup "goal" planA) plannedA.
Definition failedA : State :=
  task_rejected nodeA "boom" (set_executing [] dispatchedA).

(** A [TaskExecutor] with a live signal, and the same executor after it
    started the first task on [nodeA] and that execution failed. *)
Definition executor0 : TaskExecutor.State :=
  TaskExecutor.mkState {[ rootPlanId ]} false [] [] [] [].
Definition executor_failed : TaskExecutor.State :=
  TaskExecutor.startFirstTask_rejected nodeA "boom"
    (TaskExecutor.set_executing [] (TaskExecutor.startFirstTask nodeA planAB executor0)).

(** The machine with the first task on [nodeA] executing, and after that
    execution failed. *)
Definition first_started : State :=
  startFirstTask nodeA planAB (run "goal" emptyDAG false false).
Definition first_failed : State :=
  startFirstTask_rejected nodeA "boom" (set_firstExecuting [] first_started).

End Scenarios.

(* ===================================================================== *)
(** ** Further notions and sample runs *)
(* ===================================================================== *)

Module Notions.
Import Graph WaggleDanceMachine Scenarios.

(** A node is held back when it is completed already or some edge into it
    comes from an uncompleted source. *)
Definition held_back (d : DAG) (c : gset string) (node : DAGNode) : Prop :=
  id node ∈ c ∨ ∃ edge, In edge (edges d) ∧ tId edge = id node ∧ sId edge ∉ c.

(** Every stored result belongs to a completed node, and every pending
    first-task execution to a claimed one. *)
Definition results_completed (s : State) : Prop :=
  (∀ k, is_Some (taskResults s !! k) → k ∈ completedTasks s)
  ∧ Forall (λ nd, id (fst nd) ∈ completedTasks s) (firstExecuting s).

(** Nothing is scheduled before the plan is there. *)
Definition idle_while_planning (s : State) : Prop :=
  is_planning s = true → dag s = None ∧ toDoNodes s = [] ∧ executing s = [].

(** The node id [k] is lost: planning is over and [run] has not returned,
    and [k] is not completed while no node with this id is left to do or
    is executing. *)
Definition lost (k : string) (s : State) : Prop :=
  is_planning s = false
  ∧ (k ∉ completedTasks s)
  ∧ phase s ≠ Finished Returned
  ∧ Forall (λ n, id n ≠ k) (toDoNodes s)
  ∧ Forall (λ n, id n ≠ k) (executing s)
  ∧ Forall (λ nd, id (fst nd) ≠ k) (firstExecuting s).

(** [planAB] planned, [nodeA] dispatched, and the iteration that follows
    at once: [run] has thrown "no task" while [nodeA] is executing.  Then
    [nodeA] succeeds all the same. *)
Definition dispatchedAB : State := loop_step (hookup "goal" planAB) planned.
Definition thrownAB : State := loop_step (hookup "goal" planAB) dispatchedAB.
Definition lateA : State :=
  task_resolved nodeA (ResString "late") (set_executing [] thrownAB).

(** A planned graph that holds the root only. *)
Definition rootOnly : DAG :=
  mkDAG (initialNodes "goal") [DAGEdgeClass rootPlanId rootPlanId].

(** A plan with two independent tasks, planned. *)
Definition nodeC : DAGNode := DAGNodeClass "1-2" "C" "visit" "ctx".
Definition planAC : DAG := mkDAG [nodeA; nodeC] [].
Definition plannedAC : State :=
  planTasks_resolved planAC (run "goal" emptyDAG false false).

End Notions.

(* ===================================================================== *)
(** * Properties *)
(* ===================================================================== *)

(** ** Packets *)

Section FindLast.
Context {A : Type} (p : A → bool).

Lemma findLast_app_hit (pre post : list A) (x : A) :
  p x = true → Forall (λ y, p y = false) post →
  findLast p (pre ++ x :: post) = Some x.
Proof.
  intros Hx Hpost.
  assert (Hnone : findLast p post = None).
  { induction Hpost as [|y post Hy _ IH]; simpl; [done|]. by rewrite IH, Hy. }
  induction pre as [|z pre IH]; simpl.
  - by rewrite Hnone, Hx.
  - by rewrite IH.
Qed.

Lemma findLast_none (l : list A) :
  Forall (λ y, p y = false) l → findLast p l = None.
Proof.
  induction 1 as [|y l Hy _ IH]; simpl; [done|]. by rewrite IH, Hy.
Qed.

Lemma findLast_Some_inv (l : list A) (x : A) :
  findLast p l = Some x →
  ∃ pre post, l = pre ++ x :: post ∧ p x = true ∧ Forall (λ y, p y = false) post.
Proof.
  revert x. induction l as [|z l IH]; intros x; simpl; [done|].
  destruct (findLast p l) as [y|] eqn:Hl.
  - intros [= ->]. destruct (IH x eq_refl) as (pre & post & -> & Hx & Hpost).
    by exists (z :: pre), post.
  - destruct (p z) eqn:Hz; [|done]. intros [= ->].
    exists [], l. split_and!; [done..|].
    clear IH Hz. induction l as [|w l IH]; [constructor|].
    simpl in Hl. destruct (findLast p l); [done|].
    destruct (p w) eqn:Hw; [done|]. constructor; [done|]. by apply IH.
Qed.
End FindLast.

Lemma isAgentPacketFinishedType_iff (type : AgentPacketType) :
  isAgentPacketFinishedType type = true ↔
  type = Ty.handleAgentEnd ∨ type = Ty.done ∨ type = Ty.error
  ∨ type = Ty.handleChainError ∨ type = Ty.handleLLMError
  ∨ type = Ty.handleRetrieverError ∨ type = Ty.handleAgentError.
Proof.
  unfold isAgentPacketFinishedType, AgentPacketFinishedTypes.
  rewrite bool_decide_eq_true. rewrite !elem_of_cons, elem_of_nil. tauto.
Qed.

Lemma finishing_true (packet : AgentPacket) :
  finishing packet → isAgentPacketFinishedType (Packet.type packet) = true.
Proof. intros H. by apply isAgentPacketFinishedType_iff. Qed.

Lemma not_finishing_false (packet : AgentPacket) :
  ¬ finishing packet → isAgentPacketFinishedType (Packet.type packet) = false.
Proof.
  intros H. destruct (isAgentPacketFinishedType _) eqn:E; [|done].
  by apply isAgentPacketFinishedType_iff in E.
Qed.

Example findFinishPacket_ex1 :
  findFinishPacket [Packet.handleLLMStart; Packet.t "a"; Packet.t "b"; Packet.handleAgentEnd "X"]
  = Packet.handleAgentEnd "X".
Proof. reflexivity. Qed.

Example findFinishPacket_ex2 :
  findFinishPacket [Packet.handleToolStart "tool" "in"]
  = Packet.error fatal "No result packet found in 1 packets".
Proof. vm_compute. reflexivity. Qed.

Example findFinishPacket_ex3 :
  findFinishPacket [] = Packet.error fatal "No result packet found in 0 packets".
Proof. vm_compute. reflexivity. Qed.

Example findFinishPacket_ex4 :
  findFinishPacket [Packet.done "a"; Packet.t "b"; Packet.handleRetrieverError "e"; Packet.handleToolError "x"]
  = Packet.handleRetrieverError "e".
Proof. reflexivity. Qed.

(** C3. For every finite sequence of packets, [findFinishPacket] returns the
    last packet whose type is in the finishing set (handleAgentEnd, done,
    error, handleChainError, handleLLMError, handleRetrieverError,
    handleAgentError): whenever the sequence splits as [pre ++ p :: post]
    with [p] finishing and nothing finishing in [post], the result is [p].
    When no packet of the sequence is finishing (the empty sequence
    included) the result is a synthetic [error] packet of severity
    [fatal]. *)
Theorem findFinishPacket_last_finishing (packets : list AgentPacket) :
  (∀ pre p post,
      packets = pre ++ p :: post →
      finishing p →
      Forall (λ q, ¬ finishing q) post →
      findFinishPacket packets = p)
  ∧ (Forall (λ q, ¬ finishing q) packets →
     findFinishPacket packets
     = Packet.error fatal
         ("No result packet found in " +:+ pretty (length packets) +:+ " packets")).
Proof.
  split.
  - intros pre p post -> Hp Hpost. unfold findFinishPacket.
    rewrite (findLast_app_hit _ pre post p); [done| |].
    + by apply finishing_true.
    + eapply Forall_impl; [exact Hpost|]. intros q Hq. by apply not_finishing_false.
  - intros Hall. unfold findFinishPacket.
    rewrite findLast_none; [done|].
    eapply Forall_impl; [exact Hall|]. intros q Hq. by apply not_finishing_false.
Qed.

(** C4. [mapPacketTypeToStatus] is total and agrees with the table of the
    specification on every tag except [handleRetrieverError]: that tag, a
    member of the finishing set and listed as terminal failure, sits in the
    case group that returns [working], not in the one that returns
    [error]. *)
Theorem mapPacketTypeToStatus_table (packetType : option AgentPacketType) :
  mapPacketTypeToStatus packetType
  = (if decide (packetType = Some Ty.handleRetrieverError)
     then TaskStatus.working
     else status_table packetType)
  ∧ mapPacketTypeToStatus (Some Ty.handleRetrieverError) = TaskStatus.working
  ∧ status_table (Some Ty.handleRetrieverError) = TaskStatus.error
  ∧ isAgentPacketFinishedType Ty.handleRetrieverError = true.
Proof.
  split_and!; [|done..].
  destruct packetType as [[]|]; reflexivity.
Qed.

(** ** The scheduling loop *)

Module WaggleDanceMachineProps.
Import Graph WaggleDanceMachine Scenarios.

Lemma head_Some_In {A} (l : list A) (x : A) : head l = Some x → In x l.
Proof. destruct l; simpl; [done|]. intros [= ->]. by left. Qed.

(** What a dispatch tells about the state the iteration started from. *)
Lemma loop_iteration_dispatch_inv d c todo fts ab task todo' :
  loop_iteration d c todo fts ab = LoopDispatch task todo' →
  isGoalReached d c = false ∧ ab = false ∧ fts ≠ started
  ∧ In task todo ∧ (id task ∉ c)
  ∧ (∀ edge, In edge (edges d) → tId edge = id task → sId edge ∈ c)
  ∧ (todo' = splice1 todo (indexOf todo task)).
Proof.
  unfold loop_iteration.
  destruct (isGoalReached d c); [done|].
  destruct ab; [done|].
  set (pending := List.filter _ todo).
  destruct (bool_decide (length pending = 0) || bool_decide (fts = started)) eqn:Hgate; [done|].
  apply orb_false_iff in Hgate as [_ Hfts]. apply bool_decide_eq_false in Hfts.
  destruct (_ && _); [done|].
  destruct (head _) as [task0|] eqn:Hhead; [|done].
  intros [= -> <-].
  apply head_Some_In in Hhead. unfold pendingCurrentDagLayerTasks in Hhead.
  apply filter_In in Hhead as [Hpend Hready].
  apply filter_In in Hpend as [Htodo Hnc].
  apply negb_true_iff, bool_decide_eq_false in Hnc.
  split_and!; try done.
  intros edge Hedge Ht.
  rewrite forallb_forall in Hready.
  specialize (Hready edge). rewrite filter_In in Hready.
  apply (bool_decide_eq_true_1 (sId edge ∈ c)), Hready.
  split; [done|]. by apply bool_decide_eq_true_2.
Qed.

(** While the first task is in state [started] no iteration dispatches. *)
Lemma loop_iteration_started d c todo ab :
  loop_iteration d c todo started ab
  = if isGoalReached d c then LoopExit
    else if ab then LoopThrow "Signal aborted" else LoopSleep.
Proof.
  unfold loop_iteration. destruct (isGoalReached d c); [done|].
  destruct ab; [done|].
  rewrite (bool_decide_eq_true_2 (started = started)) by done.
  by rewrite orb_true_r.
Qed.

(** Only the state [started] holds the loop back. *)
Lemma loop_iteration_not_started d c todo fts ab :
  fts ≠ started →
  loop_iteration d c todo fts ab = loop_iteration d c todo not_started ab.
Proof.
  intros Hfts. unfold loop_iteration.
  rewrite (bool_decide_eq_false_2 (fts = started)) by done.
  by rewrite (bool_decide_eq_false_2 (not_started = started)).
Qed.

(** A pending node with all predecessors completed gets some node
    dispatched, unless the loop is over, aborted or held back. *)
Lemma loop_iteration_dispatches d c todo fts ab node :
  isGoalReached d c = false → ab = false → fts ≠ started →
  In node todo → id node ∉ c →
  (∀ edge, In edge (edges d) → tId edge = id node → sId edge ∈ c) →
  ∃ task todo', loop_iteration d c todo fts ab = LoopDispatch task todo'.
Proof.
  intros Hgoal -> Hfts Hin Hnc Hready. unfold loop_iteration. rewrite Hgoal.
  set (pending := List.filter _ todo).
  assert (Hp : In node pending).
  { apply filter_In. split; [done|]. by apply negb_true_iff, bool_decide_eq_false. }
  assert (Hr : In node (pendingCurrentDagLayerTasks d c pending)).
  { apply filter_In. split; [done|]. apply forallb_forall. intros edge He.
    apply filter_In in He as [He Ht]. apply bool_decide_eq_true in Ht.
    apply bool_decide_eq_true. by apply Hready. }
  rewrite (bool_decide_eq_false_2 (length pending = 0)).
  2:{ destruct pending; [done|]. simpl. lia. }
  rewrite (bool_decide_eq_false_2 (fts = started)) by done. simpl.
  rewrite (bool_decide_eq_false_2 (length (pendingCurrentDagLayerTasks d c pending) = 0)).
  2:{ destruct (pendingCurrentDagLayerTasks d c pending); [done|]. simpl. lia. }
  simpl. destruct (pendingCurrentDagLayerTasks d c pending) as [|task rest]; [done|].
  simpl. eauto.
Qed.

(** [toDoNodes.splice(toDoNodes.indexOf(task), 1)] takes out the first
    occurrence of the dispatched task. *)
Lemma indexOf_In {A} `{EqDecision A} (l : list A) (x : A) :
  In x l →
  ∃ pre post, l = pre ++ x :: post ∧ ¬ In x pre ∧ indexOf l x = Z.of_nat (length pre).
Proof.
  induction l as [|y l IH]; simpl; [done|].
  intros Hin. destruct (decide (y = x)) as [->|Hne].
  - exists [], l. split_and!; [done| |done]. by intros [].
  - destruct Hin as [Heq|Hin]; [done|].
    destruct (IH Hin) as (pre & post & -> & Hpre & Hidx).
    exists (y :: pre), post. split_and!; [done| |].
    + intros [?|?]; done.
    + rewrite Hidx. simpl length.
      destruct (Z.ltb_spec (Z.of_nat (length pre)) 0); lia.
Qed.

Lemma splice1_middle {A} (pre post : list A) (x : A) :
  splice1 (pre ++ x :: post) (Z.of_nat (length pre)) = pre ++ post.
Proof.
  unfold splice1. rewrite length_app. simpl length.
  destruct (Z.ltb_spec (Z.of_nat (length pre)) 0); [lia|].
  rewrite Z.min_l by lia. rewrite Nat2Z.id. apply delete_middle.
Qed.

Lemma dispatch_removes_task d c todo fts ab task todo' :
  loop_iteration d c todo fts ab = LoopDispatch task todo' →
  ∃ pre post, todo = pre ++ task :: post ∧ ¬ In task pre ∧ todo' = pre ++ post.
Proof.
  intros H. apply loop_iteration_dispatch_inv in H as (_ & _ & _ & Hin & _ & _ & ->).
  destruct (indexOf_In _ _ Hin) as (pre & post & -> & Hpre & ->).
  exists pre, post. by rewrite splice1_middle.
Qed.

(** *** Events *)

(** Inversion of an enabled event down to the atomic block it runs. *)
Ltac event_inv H :=
  simpl in H;
  repeat match type of H with
    | (if ?b then _ else _) = Some _ => destruct b eqn:?; [|discriminate H]
    | (match ?x with _ => _ end) = Some _ => destruct x eqn:?; try discriminate H
    | (_ ≫= _) = Some _ => apply bind_Some in H as (? & ? & H)
    | (_ <$> _) = Some _ => apply fmap_Some in H as (? & ? & ?)
    end;
  repeat match goal with
    | H' : (_ <$> _) = Some _ |- _ => apply fmap_Some in H' as (? & ? & ?)
    end;
  simplify_eq.

(** Case analysis on an enabled event: one goal per atomic block. *)
Ltac event_cases H :=
  match type of H with
  | apply_event ?ev _ = Some _ => destruct ev
  end; event_inv H.

Lemma loop_step_completedTasks d s : completedTasks (loop_step d s) = completedTasks s.
Proof. unfold loop_step. by destruct (loop_iteration _ _ _ _ _). Qed.

Lemma loop_step_dag d s : dag (loop_step d s) = dag s.
Proof. unfold loop_step. by destruct (loop_iteration _ _ _ _ _). Qed.

Lemma loop_step_goal d s : goal (loop_step d s) = goal s.
Proof. unfold loop_step. by destruct (loop_iteration _ _ _ _ _). Qed.

Lemma loop_step_planTasksCalls d s : planTasksCalls (loop_step d s) = planTasksCalls s.
Proof. unfold loop_step. by destruct (loop_iteration _ _ _ _ _). Qed.

Lemma loop_step_not_planning d s :
  is_planning s = false → is_planning (loop_step d s) = false.
Proof. unfold loop_step. by destruct (loop_iteration _ _ _ _ _). Qed.

Lemma startFirstTask_completedTasks task d s :
  completedTasks (startFirstTask task d s) = completedTasks s ∪ {[ id task ]}.
Proof. unfold startFirstTask. simpl. by destruct (aborted s). Qed.

Lemma startFirstTask_resolved_completedTasks task d result s :
  completedTasks (startFirstTask_resolved task d result s) = completedTasks s.
Proof.
  unfold startFirstTask_resolved. simpl.
  destruct (find_first _ _); [|done]. destruct (falsy result); [done|].
  by destruct result.
Qed.

Lemma startFirstTask_resolved_frozen task d result s :
  dag (startFirstTask_resolved task d result s) = dag s
  ∧ phase (startFirstTask_resolved task d result s) = phase s
  ∧ goal (startFirstTask_resolved task d result s) = goal s
  ∧ planTasksCalls (startFirstTask_resolved task d result s) = planTasksCalls s.
Proof.
  unfold startFirstTask_resolved. simpl.
  destruct (find_first _ _); [|done]. destruct (falsy result); [done|].
  by destruct result.
Qed.

Lemma planTasks_resolved_completedTasks plan s :
  completedTasks (planTasks_resolved plan s) = completedTasks s.
Proof. unfold planTasks_resolved. by destruct (find_first _ _). Qed.

Lemma planTasks_resolved_dag plan s :
  dag (planTasks_resolved plan s) = Some (hookup (goal s) plan)
  ∧ is_planning (planTasks_resolved plan s) = false
  ∧ goal (planTasks_resolved plan s) = goal s
  ∧ planTasksCalls (planTasks_resolved plan s) = planTasksCalls s.
Proof. unfold planTasks_resolved. by destruct (find_first _ _). Qed.

(** [CompletedTasks] only grows. *)
Lemma apply_event_completedTasks_mono ev s s' :
  apply_event ev s = Some s' → completedTasks s ⊆ completedTasks s'.
Proof.
  intros H. event_cases H; simpl;
    rewrite ?startFirstTask_completedTasks, ?startFirstTask_resolved_completedTasks,
            ?planTasks_resolved_completedTasks, ?loop_step_completedTasks;
    simpl; set_solver.
Qed.

Lemma run_events_completedTasks_mono evs s s' :
  run_events evs s = Some s' → completedTasks s ⊆ completedTasks s'.
Proof.
  revert s. induction evs as [|ev evs IH]; intros s; simpl.
  - by intros [= ->].
  - intros H. apply bind_Some in H as (s1 & H1 & H2).
    apply apply_event_completedTasks_mono in H1. apply IH in H2. set_solver.
Qed.

(** Brings the facts about the two continuations in the goal into the
    context. *)
Ltac frozen_facts :=
  repeat match goal with
    | |- context [startFirstTask_resolved ?t ?d ?r ?s] =>
        destruct (startFirstTask_resolved_frozen t d r s) as (? & ? & ? & ?);
        generalize dependent (startFirstTask_resolved t d r s); intros
    | |- context [planTasks_resolved ?p ?s] =>
        destruct (planTasks_resolved_dag p s) as (? & ? & ? & ?);
        generalize dependent (planTasks_resolved p s); intros
    end; simpl in *.

Lemma apply_event_goal ev s s' :
  apply_event ev s = Some s' → goal s' = goal s.
Proof.
  intros H. event_cases H; simpl; try done; frozen_facts; try done.
  - unfold startFirstTask. simpl. by destruct (aborted s).
  - apply loop_step_goal.
Qed.

Lemma apply_event_planTasksCalls ev s s' :
  apply_event ev s = Some s' → planTasksCalls s' = planTasksCalls s.
Proof.
  intros H. event_cases H; simpl; try done; frozen_facts; try done.
  - unfold startFirstTask. simpl. by destruct (aborted s).
  - apply loop_step_planTasksCalls.
Qed.

(** Once planning is over the execution graph is never assigned again. *)
Lemma apply_event_after_planning ev s s' :
  apply_event ev s = Some s' → is_planning s = false →
  dag s' = dag s ∧ is_planning s' = false.
Proof.
  intros H Hp. event_cases H; simpl; try done; try congruence.
  - frozen_facts. split; [done|]. unfold is_planning in *.
    match goal with Hph : phase _ = phase _ |- _ => by rewrite Hph end.
  - split; [by rewrite loop_step_dag|]. by apply loop_step_not_planning.
Qed.

Lemma run_events_after_planning evs s s' :
  run_events evs s = Some s' → is_planning s = false →
  dag s' = dag s ∧ is_planning s' = false.
Proof.
  revert s. induction evs as [|ev evs IH]; intros s; simpl.
  - by intros [= ->].
  - intros H Hp. apply bind_Some in H as (s1 & H1 & H2).
    destruct (apply_event_after_planning _ _ _ H1 Hp) as [Hd Hp1].
    destruct (IH _ H2 Hp1) as [Hd' Hp']. split; congruence.
Qed.

Lemma run_events_planTasksCalls evs s s' :
  run_events evs s = Some s' → planTasksCalls s' = planTasksCalls s.
Proof.
  revert s. induction evs as [|ev evs IH]; intros s; simpl.
  - by intros [= ->].
  - intros H. apply bind_Some in H as (s1 & H1 & H2).
    apply apply_event_planTasksCalls in H1. apply IH in H2. congruence.
Qed.

Lemma run_events_app evs1 evs2 s :
  run_events (evs1 ++ evs2) s = s1 ← run_events evs1 s; run_events evs2 s1.
Proof.
  revert s. induction evs1 as [|ev evs1 IH]; intros s; simpl; [done|].
  destruct (apply_event ev s); simpl; [apply IH|done].
Qed.

(** A loop event that adds a call of [executeTask] is a dispatch of the
    iteration. *)
Lemma loop_event_dispatch s s' task :
  apply_event EvLoop s = Some s' →
  executing s' = executing s ++ [task] →
  ∃ d todo', dag s = Some d
    ∧ loop_iteration d (completedTasks s) (toDoNodes s)
        (firstTaskState (optimisticFirstTaskState s)) (aborted s)
      = LoopDispatch task todo'.
Proof.
  simpl. destruct (phase s); try done. destruct (dag s) as [d|]; [|done].
  intros [= <-]. unfold loop_step.
  destruct (loop_iteration _ _ _ _ _) as [| | |task0 todo'] eqn:Hit; simpl.
  - intros Heq. apply (f_equal length) in Heq. rewrite length_app in Heq. simpl in Heq. lia.
  - intros Heq. apply (f_equal length) in Heq. rewrite length_app in Heq. simpl in Heq. lia.
  - intros Heq. apply (f_equal length) in Heq. rewrite length_app in Heq. simpl in Heq. lia.
  - intros Heq. apply app_inj_tail in Heq as [_ ->]. eauto.
Qed.

(** C1. In every state of the machine, a scheduling-loop iteration that
    hands a node to [executeTask] does so only when every edge of the
    execution graph whose target is that node has its source id in
    [completedTasks] at that moment: the loop never dispatches a node with
    an uncompleted predecessor. *)
Theorem loop_dispatch_predecessors_completed (s s' : State) (d : DAG) (task : DAGNode) :
  dag s = Some d →
  apply_event EvLoop s = Some s' →
  executing s' = executing s ++ [task] →
  ∀ edge, In edge (edges d) → tId edge = id task → sId edge ∈ completedTasks s.
Proof.
  intros Hd Hloop Hexec.
  destruct (loop_event_dispatch _ _ _ Hloop Hexec) as (d' & todo' & Hd' & Hit).
  assert (d' = d) as -> by congruence.
  by apply loop_iteration_dispatch_inv in Hit as (_ & _ & _ & _ & _ & Hpred & _).
Qed.

Lemma loop_dispatch_predecessors_completed_witness :
  sId (DAGEdgeClass rootPlanId "1-0") ∈ completedTasks planned.
Proof.
  apply (loop_dispatch_predecessors_completed planned
           (loop_step (hookup "goal" planAB) planned) (hookup "goal" planAB) nodeA).
  - reflexivity.
  - reflexivity.
  - vm_compute. reflexivity.
  - simpl. right. left. reflexivity.
  - reflexivity.
Defined.

(** With [nodeA] executing, [nodeB] is pending but not ready: the next
    iteration finds no task and throws. *)
Example waiting_dependent_throws :
  toDoNodes (loop_step (hookup "goal" planAB) planned)
  = [DAGNodeClass rootPlanId "👸🐝 Queen Bee" "Planning how to achieve your goal" "goal"; nodeB]
  ∧ apply_event EvLoop (loop_step (hookup "goal" planAB) planned)
    = Some (set_phase (Finished (Thrown "no task"))
              (loop_step (hookup "goal" planAB) planned)).
Proof. split; vm_compute; reflexivity. Qed.

(** *** Hooking up the root *)

Lemma foldl_add_targets (es : list DAGEdge) (acc : gset string) (x : string) :
  x ∈ foldl (λ acc edge, acc ∪ {[ tId edge ]}) acc es
  ↔ x ∈ acc ∨ ∃ edge, In edge es ∧ tId edge = x.
Proof.
  revert acc. induction es as [|e es IH]; intros acc; simpl.
  - split; [by left|]. intros [H|(edge & [] & _)]. done.
  - rewrite IH, elem_of_union, elem_of_singleton. split.
    + intros [[H|H]|(edge & Hin & Ht)]; [by left|right..]; eauto.
    + intros [H|(edge & [<-|Hin] & Ht)]; [by left; left|by left; right|right; eauto].
Qed.

Lemma foldl_push_filter {A} (p : A → bool) (l acc : list A) :
  foldl (λ acc x, if p x then acc else acc ++ [x]) acc l
  = acc ++ List.filter (λ x, negb (p x)) l.
Proof.
  revert acc. induction l as [|x l IH]; intros acc; simpl.
  - by rewrite app_nil_r.
  - rewrite IH. destruct (p x); simpl; [done|]. by rewrite <- app_assoc.
Qed.

Lemma findNodesWithNoIncomingEdges_filter (plan : DAG) :
  findNodesWithNoIncomingEdges plan = List.filter (no_incoming plan) (nodes plan).
Proof.
  unfold findNodesWithNoIncomingEdges. rewrite foldl_push_filter. simpl.
  apply filter_ext. intros node. unfold no_incoming.
  destruct (forallb _ (edges plan)) eqn:Hall.
  - apply negb_true_iff, bool_decide_eq_false. rewrite foldl_add_targets.
    intros [H|(edge & Hin & Ht)]; [set_solver|].
    rewrite forallb_forall in Hall. specialize (Hall edge Hin).
    apply negb_true_iff, bool_decide_eq_false in Hall. done.
  - apply negb_false_iff, bool_decide_eq_true. rewrite foldl_add_targets. right.
    apply not_true_iff_false in Hall.
    destruct (existsb (λ edge, bool_decide (tId edge = id node)) (edges plan)) eqn:Hex.
    + apply existsb_exists in Hex as (edge & Hin & Ht).
      apply bool_decide_eq_true in Ht. eauto.
    + exfalso. apply Hall, forallb_forall. intros edge Hin.
      destruct (bool_decide (tId edge = id node)) eqn:Ht; [|done].
      assert (existsb (λ edge, bool_decide (tId edge = id node)) (edges plan) = true)
        by (apply existsb_exists; eauto).
      congruence.
Qed.

Lemma run_events_goal evs s s' :
  run_events evs s = Some s' → goal s' = goal s.
Proof.
  revert s. induction evs as [|ev evs IH]; intros s; simpl.
  - by intros [= ->].
  - intros H. apply bind_Some in H as (s1 & H1 & H2).
    apply apply_event_goal in H1. apply IH in H2. congruence.
Qed.

(** [planTasks] returns at most once per run: no plan arrives while the
    machine is not planning ... *)
Lemma run_events_no_plan_after evs s s' :
  run_events evs s = Some s' → is_planning s = false →
  Forall (λ ev, ∀ plan, ev ≠ EvPlanResolved plan) evs.
Proof.
  revert s. induction evs as [|ev evs IH]; intros s; simpl; [constructor|].
  intros H Hp. apply bind_Some in H as (s1 & H1 & H2).
  constructor.
  - intros plan ->. simpl in H1. by rewrite Hp in H1.
  - apply (IH s1); [done|]. by apply (apply_event_after_planning _ _ _ H1).
Qed.

(** ... and none arrived earlier when the machine is still planning. *)
Lemma run_events_no_plan_before evs s s' :
  run_events evs s = Some s' → is_planning s' = true →
  Forall (λ ev, ∀ plan, ev ≠ EvPlanResolved plan) evs.
Proof.
  revert s. induction evs as [|ev evs IH]; intros s; simpl; [constructor|].
  intros H Hp. apply bind_Some in H as (s1 & H1 & H2).
  constructor; [|by apply (IH s1)].
  intros plan ->. simpl in H1. destruct (is_planning s); [|done].
  injection H1 as <-.
  destruct (run_events_after_planning _ _ _ H2) as [_ Hp'].
  - apply planTasks_resolved_dag.
  - congruence.
Qed.

(** C5. On the planning path of [run], when [planTasks] returns the plan
    graph (after any events [pre], followed by any events [post]), the
    execution graph is the plan graph with the root node prepended to its
    node sequence and, appended to its edges, one edge from the root id to
    each plan node that is the target of no plan edge; every plan node and
    plan edge is kept, and this happens once: no other plan arrives in the
    run and the graph is not assigned again. *)
Theorem hookup_root_once
    (goal : string) (initDAG : DAG) (isDonePlanning abortedAtEntry : bool)
    (pre post : list Event) (plan : DAG) (s' : State) :
  run_events (pre ++ EvPlanResolved plan :: post)
             (run goal initDAG isDonePlanning abortedAtEntry) = Some s' →
  ∃ d, dag s' = Some d
    ∧ nodes d
      = DAGNodeClass rootPlanId "👸🐝 Queen Bee" "Planning how to achieve your goal" goal
        :: nodes plan
    ∧ edges d
      = edges plan
        ++ map (λ node, DAGEdgeClass rootPlanId (id node))
               (List.filter (no_incoming plan) (nodes plan))
    ∧ Forall (λ ev, ∀ plan', ev ≠ EvPlanResolved plan') (pre ++ post).
Proof.
  intros H. rewrite run_events_app in H.
  apply bind_Some in H as (s1 & Hpre & H). simpl in H.
  apply bind_Some in H as (s2 & Hplan & Hpost).
  destruct (is_planning s1) eqn:Hp1; [|done]. injection Hplan as <-.
  destruct (planTasks_resolved_dag plan s1) as (Hd & Hp2 & _).
  destruct (run_events_after_planning _ _ _ Hpost Hp2) as [Hd' _].
  exists (hookup (WaggleDanceMachine.goal s1) plan).
  split; [congruence|].
  rewrite (run_events_goal _ _ _ Hpre).
  assert (Hg : WaggleDanceMachine.goal (run goal initDAG isDonePlanning abortedAtEntry) = goal).
  { unfold run. by destruct (_ && _). }
  rewrite Hg. split_and!.
  - reflexivity.
  - unfold hookup. simpl. by rewrite findNodesWithNoIncomingEdges_filter.
  - apply Forall_app. split.
    + by apply (run_events_no_plan_before _ _ _ Hpre).
    + by apply (run_events_no_plan_after _ _ _ Hpost).
Qed.

Lemma hookup_root_once_witness :
  ∃ d, dag (set_aborted true planned) = Some d
    ∧ nodes d
      = DAGNodeClass rootPlanId "👸🐝 Queen Bee" "Planning how to achieve your goal" "goal"
        :: nodes planAB
    ∧ edges d
      = edges planAB
        ++ map (λ node, DAGEdgeClass rootPlanId (id node))
               (List.filter (no_incoming planAB) (nodes planAB))
    ∧ Forall (λ ev, ∀ plan', ev ≠ EvPlanResolved plan') ([] ++ [EvAbort]).
Proof.
  apply (hookup_root_once "goal" emptyDAG false false [] [EvAbort] planAB).
  reflexivity.
Defined.

Example hookup_planAB :
  hookup "goal" planAB
  = mkDAG [DAGNodeClass rootPlanId "👸🐝 Queen Bee" "Planning how to achieve your goal" "goal";
           nodeA; nodeB]
          [DAGEdgeClass "1-0" "1-1"; DAGEdgeClass rootPlanId "1-0"].
Proof. vm_compute. reflexivity. Qed.

(** *** Resuming a planned run *)

(** C8, as stated, fails: [run] with the non-empty graph [loneNode] (one
    node, no edge) and [isDonePlanning] set takes the planning branch: it
    calls [planTasks], the execution graph is still unassigned and the
    flag is reset. *)
Lemma resume_lone_node_replans :
  nodes loneNode = [nodeA]
  ∧ planTasksCalls (run "goal" loneNode true false) = 1
  ∧ phase (run "goal" loneNode true false) = Planning
  ∧ dag (run "goal" loneNode true false) = None
  ∧ isDonePlanning (run "goal" loneNode true false) = false.
Proof. by split_and!. Qed.

(** C8, amended. If [run] is invoked with an initial graph that has at
    least one edge and with [isDonePlanning] set, the planner is not invoked
    at all, at entry or later: [run] takes the supplied graph as the
    execution graph, sends no packet, and is in the scheduling loop with
    all the graph's nodes to do; the execution graph stays the supplied one
    whatever happens next. *)
Theorem resume_skips_planning
    (goal : string) (initDAG : DAG) (abortedAtEntry : bool)
    (evs : list Event) (s' : State) :
  0 < length (edges initDAG) →
  run_events evs (run goal initDAG true abortedAtEntry) = Some s' →
  phase (run goal initDAG true abortedAtEntry) = Scheduling
  ∧ toDoNodes (run goal initDAG true abortedAtEntry) = nodes initDAG
  ∧ sent (run goal initDAG true abortedAtEntry) = []
  ∧ planTasksCalls s' = 0
  ∧ dag s' = Some initDAG
  ∧ Forall (λ ev, match ev with
                  | EvLoop | EvAbort | EvTaskResolved _ _ | EvTaskRejected _ _ => True
                  | _ => False
                  end) evs.
Proof.
  intros Hedges Hrun.
  assert (Hentry : run goal initDAG true abortedAtEntry
                   = set_phase Scheduling
                       (set_toDoNodes (nodes initDAG)
                          (set_dag (Some initDAG)
                             (mkState goal None {[ rootPlanId ]} ∅ (mkOFTS not_started None)
                                      [] abortedAtEntry true [] [] [] 0 Planning)))).
  { unfold run. by rewrite bool_decide_eq_true_2. }
  rewrite Hentry in *. simpl. split_and!; try done.
  - by rewrite (run_events_planTasksCalls _ _ _ Hrun).
  - by destruct (run_events_after_planning _ _ _ Hrun) as [-> _].
  - clear Hentry.
    set (s0 := set_phase _ _) in Hrun.
    assert (Hinv : is_planning s0 = false ∧ firstExecuting s0 = []) by done.
    clearbody s0. revert s0 Hrun Hinv.
    induction evs as [|ev evs IH]; intros s0 Hrun [Hp Hfe]; [constructor|].
    simpl in Hrun. apply bind_Some in Hrun as (s1 & H1 & H2).
    assert (Hfe1 : firstExecuting s1 = []).
    { clear IH H2. event_cases H1; simpl; try done; try congruence;
        try (match goal with
             | Hs : settle _ (firstExecuting _) = Some _ |- _ =>
                 rewrite Hfe in Hs; discriminate Hs
             end).
      unfold loop_step. by destruct (loop_iteration _ _ _ _ _). }
    constructor.
    + destruct ev; simpl in H1; try done; rewrite ?Hp, ?Hfe in H1; simpl in H1; done.
    + apply (IH s1 H2). split; [|done].
      by apply (apply_event_after_planning _ _ _ H1).
Qed.

Lemma resume_skips_planning_witness :
  phase (run "goal" (hookup "goal" planAB) true false) = Scheduling
  ∧ toDoNodes (run "goal" (hookup "goal" planAB) true false) = nodes (hookup "goal" planAB)
  ∧ sent (run "goal" (hookup "goal" planAB) true false) = []
  ∧ planTasksCalls (loop_step (hookup "goal" planAB)
                      (run "goal" (hookup "goal" planAB) true false)) = 0
  ∧ dag (loop_step (hookup "goal" planAB)
           (run "goal" (hookup "goal" planAB) true false)) = Some (hookup "goal" planAB)
  ∧ Forall (λ ev, match ev with
                  | EvLoop | EvAbort | EvTaskResolved _ _ | EvTaskRejected _ _ => True
                  | _ => False
                  end) [EvLoop].
Proof.
  apply (resume_skips_planning "goal" (hookup "goal" planAB) false [EvLoop]).
  - vm_compute. lia.
  - reflexivity.
Defined.

(** *** The optimistic first task *)

(** C6. Once [startFirstTask] has claimed a node id (adding it to
    [completedTasks] while planning is still running), the id stays in
    [completedTasks] through every later event, whether the optimistic
    execution resolves, is rejected or never settles, and no later iteration
    of the scheduling loop dispatches a node with that id. *)
Theorem claimed_first_task_never_redispatched
    (s0 s1 s s' : State) (task : DAGNode) (d : DAG) (evs : list Event) (n : DAGNode) :
  apply_event (EvStartFirstTask task d) s0 = Some s1 →
  run_events evs s1 = Some s →
  apply_event EvLoop s = Some s' →
  executing s' = executing s ++ [n] →
  id task ∈ completedTasks s ∧ id n ≠ id task.
Proof.
  intros Hstart Hrun Hloop Hexec.
  assert (Hin : id task ∈ completedTasks s).
  { apply (run_events_completedTasks_mono _ _ _ Hrun).
    simpl in Hstart. destruct (is_planning s0); [|done]. injection Hstart as <-.
    rewrite startFirstTask_completedTasks. set_solver. }
  split; [done|].
  destruct (loop_event_dispatch _ _ _ Hloop Hexec) as (d' & todo' & _ & Hit).
  apply loop_iteration_dispatch_inv in Hit as (_ & _ & _ & _ & Hnc & _).
  intros Heq. apply Hnc. by rewrite Heq.
Qed.

Lemma claimed_first_task_never_redispatched_witness :
  id nodeA ∈ completedTasks first_done_planned ∧ id nodeB ≠ id nodeA.
Proof.
  apply (claimed_first_task_never_redispatched
           (run "goal" emptyDAG false false)
           (startFirstTask nodeA planAB (run "goal" emptyDAG false false))
           first_done_planned
           (loop_step (hookup "goal" planAB) first_done_planned)
           nodeA planAB
           [EvFirstTaskResolved nodeA planAB (ResString "ok"); EvPlanResolved planAB]
           nodeB).
  - reflexivity.
  - vm_compute. reflexivity.
  - reflexivity.
  - vm_compute. reflexivity.
Defined.

(** C9, as stated, fails: with the first task in state [started], once
    the abort signal is set (here while the loop sleeps) the next loop
    iteration does not sleep; it throws "Signal aborted" and [run] is
    over. *)
Lemma started_iteration_throws_on_abort :
  run_events [EvStartFirstTask nodeA planAB; EvPlanResolved planAB; EvLoop; EvAbort]
             (run "goal" emptyDAG false false)
  = Some started_aborted
  ∧ firstTaskState (optimisticFirstTaskState started_aborted) = started
  ∧ loop_iteration (hookup "goal" planAB)
      (completedTasks started_aborted) (toDoNodes started_aborted)
      started (aborted started_aborted)
    = LoopThrow "Signal aborted"
  ∧ apply_event EvLoop started_aborted
    = Some (set_phase (Finished (Thrown "Signal aborted")) started_aborted).
Proof. split_and!; vm_compute; reflexivity. Qed.

(** C9, amended. While the first task's state is [started], no iteration
    of the scheduling loop dispatches: the pending [executeTask] calls and
    the to-do list are unchanged by it.  An iteration whose abort check
    passes sleeps and re-checks, leaving the whole state as it was, even
    when a node with all predecessors completed is waiting; an iteration
    that finds the abort signal set throws "Signal aborted". *)
Theorem started_first_task_blocks_dispatch (s s' : State) (d : DAG) :
  firstTaskState (optimisticFirstTaskState s) = started →
  dag s = Some d →
  apply_event EvLoop s = Some s' →
  executing s' = executing s
  ∧ toDoNodes s' = toDoNodes s
  ∧ (isGoalReached d (completedTasks s) = false → aborted s = false → s' = s)
  ∧ (isGoalReached d (completedTasks s) = false → aborted s = true →
     phase s' = Finished (Thrown "Signal aborted")).
Proof.
  intros Hfts Hd. simpl. rewrite Hd. destruct (phase s); try done.
  intros [= <-]. unfold loop_step. rewrite Hfts, loop_iteration_started.
  destruct (isGoalReached d (completedTasks s)); [by split_and!|].
  destruct (aborted s); by split_and!.
Qed.

Lemma started_first_task_blocks_dispatch_witness :
  executing started_planned = executing started_planned
  ∧ toDoNodes started_planned = toDoNodes started_planned
  ∧ (isGoalReached (hookup "goal" planAB) (completedTasks started_planned) = false →
     aborted started_planned = false → started_planned = started_planned)
  ∧ (isGoalReached (hookup "goal" planAB) (completedTasks started_planned) = false →
     aborted started_planned = true →
     phase started_planned = Finished (Thrown "Signal aborted")).
Proof.
  apply (started_first_task_blocks_dispatch started_planned started_planned
           (hookup "goal" planAB)).
  - reflexivity.
  - reflexivity.
  - vm_compute. reflexivity.
Defined.

(** *** Failures *)

(** C2, as stated, fails: plan the single task [nodeA], let the loop
    dispatch it and sleep, and let its execution fail.  After the failure
    callback has run, the id of [nodeA] is not in [completedTasks] and has
    no entry in [taskResults]; only the warn packet was sent.  The loop
    then sleeps on: the goal is not reached and nothing is left to
    dispatch. *)
Lemma warn_failure_not_recorded :
  run_events [EvPlanResolved planA; EvLoop; EvLoop; EvTaskRejected nodeA "boom"]
             (run "goal" emptyDAG false false)
  = Some failedA
  ∧ executing dispatchedA = [nodeA]
  ∧ (id nodeA ∉ completedTasks failedA)
  ∧ taskResults failedA !! id nodeA = None
  ∧ sent failedA = sent dispatchedA ++ [(Packet.error warn "boom", nodeA)]
  ∧ isGoalReached (hookup "goal" planA) (completedTasks failedA) = false
  ∧ apply_event EvLoop failedA = Some failedA.
Proof.
  split_and!; try (vm_compute; reflexivity).
  apply (bool_decide_eq_false_1 (id nodeA ∈ completedTasks failedA)).
  vm_compute. reflexivity.
Qed.

(** C2, amended. When the execution of a dispatched task fails, the
    failure callback sends a warn-severity error packet for the node and
    records nothing: [completedTasks] and [taskResults] are as before (the
    node's id is not added), the abort signal is not triggered and [run] is
    in the same phase as before, so the callback does not end the run. *)
Theorem warn_failure_only_reported (s s' : State) (task : DAGNode) (error : string) :
  apply_event (EvTaskRejected task error) s = Some s' →
  sent s' = sent s ++ [(Packet.error warn error, task)]
  ∧ completedTasks s' = completedTasks s
  ∧ taskResults s' = taskResults s
  ∧ aborted s' = aborted s
  ∧ phase s' = phase s
  ∧ toDoNodes s' = toDoNodes s.
Proof. intros H. event_inv H. by split_and!. Qed.

Lemma warn_failure_only_reported_witness :
  sent failedA = sent dispatchedA ++ [(Packet.error warn "boom", nodeA)]
  ∧ completedTasks failedA = completedTasks dispatchedA
  ∧ taskResults failedA = taskResults dispatchedA
  ∧ aborted failedA = aborted dispatchedA
  ∧ phase failedA = phase dispatchedA
  ∧ toDoNodes failedA = toDoNodes dispatchedA.
Proof.
  apply (warn_failure_only_reported dispatchedA failedA nodeA "boom").
  vm_compute. reflexivity.
Defined.

(** C7, as stated, fails for [TaskExecutor.startFirstTask]: the failure of
    the first task's execution triggers the abort signal. *)
Lemma executor_first_task_failure_aborts :
  TaskExecutor.aborted executor0 = false
  ∧ TaskExecutor.run_events
      [TaskExecutor.EvStartFirstTask nodeA planAB;
       TaskExecutor.EvFirstTaskRejected nodeA planAB "boom"] executor0
    = Some executor_failed
  ∧ TaskExecutor.aborted executor_failed = true
  ∧ TaskExecutor.injected executor_failed = [(Packet.error warn "boom", nodeA)].
Proof. split_and!; vm_compute; reflexivity. Qed.

(** C7, amended. When the optimistic first task's execution fails, both
    implementations emit a warn-severity error packet for that node.  The
    [startFirstTask] closure of [WaggleDanceMachine.run] marks the attempt
    failed (state [error]) and does not touch the abort signal, the phase
    of the run or [completedTasks]; the scheduling loop then iterates as
    if no first task had been started.  [TaskExecutor.startFirstTask]
    calls [rejectFirstTask] with the message and triggers the abort
    signal. *)
Theorem first_task_failure
    (s s' : State) (ts ts' : TaskExecutor.State)
    (task : DAGNode) (d : DAG) (error : string) :
  apply_event (EvFirstTaskRejected task d error) s = Some s' →
  TaskExecutor.apply_event (TaskExecutor.EvFirstTaskRejected task d error) ts = Some ts' →
  (sent s' = sent s ++ [(Packet.error warn error, task)]
   ∧ firstTaskState (optimisticFirstTaskState s') = fts_error
   ∧ aborted s' = aborted s
   ∧ phase s' = phase s
   ∧ completedTasks s' = completedTasks s
   ∧ ∀ dg, loop_iteration dg (completedTasks s') (toDoNodes s')
             (firstTaskState (optimisticFirstTaskState s')) (aborted s')
           = loop_iteration dg (completedTasks s) (toDoNodes s) not_started (aborted s))
  ∧ (TaskExecutor.injected ts' = TaskExecutor.injected ts ++ [(Packet.error warn error, task)]
     ∧ TaskExecutor.rejectedFirstTask ts' = TaskExecutor.rejectedFirstTask ts ++ [error]
     ∧ TaskExecutor.aborted ts' = true).
Proof.
  intros H Hts. event_inv H. split.
  - split_and!; try done.
  - simpl in Hts. apply bind_Some in Hts as (ts1 & Hts1 & [= <-]).
    apply fmap_Some in Hts1 as (l & _ & ->). by split_and!.
Qed.

Lemma first_task_failure_witness :
  (sent first_failed = sent first_started ++ [(Packet.error warn "boom", nodeA)]
   ∧ firstTaskState (optimisticFirstTaskState first_failed) = fts_error
   ∧ aborted first_failed = aborted first_started
   ∧ phase first_failed = phase first_started
   ∧ completedTasks first_failed = completedTasks first_started
   ∧ ∀ dg, loop_iteration dg (completedTasks first_failed) (toDoNodes first_failed)
             (firstTaskState (optimisticFirstTaskState first_failed)) (aborted first_failed)
           = loop_iteration dg (completedTasks first_started) (toDoNodes first_started)
               not_started (aborted first_started))
  ∧ (TaskExecutor.injected executor_failed
     = TaskExecutor.injected (TaskExecutor.startFirstTask nodeA planAB executor0)
       ++ [(Packet.error warn "boom", nodeA)]
     ∧ TaskExecutor.rejectedFirstTask executor_failed
       = TaskExecutor.rejectedFirstTask (TaskExecutor.startFirstTask nodeA planAB executor0)
         ++ ["boom"]
     ∧ TaskExecutor.aborted executor_failed = true).
Proof.
  apply (first_task_failure first_started first_failed
           (TaskExecutor.startFirstTask nodeA planAB executor0) executor_failed
           nodeA planAB "boom").
  - vm_compute. reflexivity.
  - vm_compute. reflexivity.
Defined.

(** *** The pre-emptive claim under an aborted signal *)

Lemma settle_Forall {A} `{EqDecision A} (P : A → Prop) (x : A) (l l' : list A) :
  settle x l = Some l' → Forall P l → P x ∧ Forall P l'.
Proof.
  revert l'. induction l as [|y l IH]; intros l'; simpl; [done|].
  destruct (decide (y = x)) as [->|Hne].
  - intros [= <-] Hall. by inversion Hall.
  - intros Hs Hall. apply fmap_Some in Hs as (l1 & Hs & ->).
    inversion Hall as [|? ? Hy Hl]; subst.
    destruct (IH _ Hs Hl) as [Hx Hl1]. split; [done|]. by constructor.
Qed.

Lemma loop_step_aborted d s :
  aborted s = true →
  executing (loop_step d s) = executing s
  ∧ firstExecuting (loop_step d s) = firstExecuting s
  ∧ aborted (loop_step d s) = true
  ∧ taskResults (loop_step d s) = taskResults s.
Proof.
  intros Hab. unfold loop_step, loop_iteration. rewrite Hab.
  by destruct (isGoalReached d (completedTasks s)).
Qed.

Lemma startFirstTask_resolved_other task d result s :
  aborted (startFirstTask_resolved task d result s) = aborted s
  ∧ executing (startFirstTask_resolved task d result s) = executing s
  ∧ firstExecuting (startFirstTask_resolved task d result s) = firstExecuting s
  ∧ taskResults (startFirstTask_resolved task d result s)
    = <[ id task := result ]> (taskResults s).
Proof.
  unfold startFirstTask_resolved. simpl.
  destruct (find_first _ _); [|done]. destruct (falsy result); [done|].
  by destruct result.
Qed.

Lemma planTasks_resolved_other plan s :
  aborted (planTasks_resolved plan s) = aborted s
  ∧ executing (planTasks_resolved plan s) = executing s
  ∧ firstExecuting (planTasks_resolved plan s) = firstExecuting s
  ∧ taskResults (planTasks_resolved plan s) = taskResults s.
Proof. unfold planTasks_resolved. by destruct (find_first _ _). Qed.

(** Under [quiet k] no event writes [taskResults[k]], and the state stays
    quiet. *)
Lemma apply_event_quiet k ev s s' :
  apply_event ev s = Some s' → quiet k s →
  quiet k s' ∧ taskResults s' !! k = taskResults s !! k.
Proof.
  intros H (Hab & Hex & Hfe). unfold quiet.
  destruct ev; event_inv H; simpl; try done.
  - unfold startFirstTask. simpl. rewrite Hab. simpl. done.
  - match goal with Hs : settle _ _ = Some _ |- _ =>
      destruct (settle_Forall _ _ _ _ Hs Hfe) as [Hk Hfe'] end.
    match goal with |- context [startFirstTask_resolved ?t ?d ?r ?s0] =>
      destruct (startFirstTask_resolved_other t d r s0) as (-> & -> & -> & ->) end.
    simpl in *. split; [done|]. by rewrite lookup_insert_ne.
  - match goal with Hs : settle _ _ = Some _ |- _ =>
      destruct (settle_Forall _ _ _ _ Hs Hfe) as [Hk Hfe'] end.
    done.
  - match goal with |- context [loop_step ?d ?s0] =>
      destruct (loop_step_aborted d s0 Hab) as (-> & -> & -> & ->) end.
    done.
  - match goal with Hs : settle _ _ = Some _ |- _ =>
      destruct (settle_Forall _ _ _ _ Hs Hex) as [Hk Hex'] end.
    split; [done|]. by rewrite lookup_insert_ne.
  - match goal with Hs : settle _ _ = Some _ |- _ =>
      destruct (settle_Forall _ _ _ _ Hs Hex) as [Hk Hex'] end.
    done.
Qed.

Lemma run_events_quiet k evs s s' :
  run_events evs s = Some s' → quiet k s →
  taskResults s' !! k = taskResults s !! k.
Proof.
  revert s. induction evs as [|ev evs IH]; intros s; simpl.
  - by intros [= ->].
  - intros H Hq. apply bind_Some in H as (s1 & H1 & H2).
    destruct (apply_event_quiet _ _ _ _ H1 Hq) as [Hq1 Heq].
    rewrite <- Heq. by apply IH.
Qed.

Lemma executor_completedTasks_mono ev (ts ts' : TaskExecutor.State) :
  TaskExecutor.apply_event ev ts = Some ts' →
  TaskExecutor.completedTasks ts ⊆ TaskExecutor.completedTasks ts'.
Proof.
  destruct ev; simpl.
  - by intros [= <-].
  - intros [= <-]. unfold TaskExecutor.startFirstTask. simpl.
    destruct (TaskExecutor.aborted ts); simpl; set_solver.
  - intros H. apply bind_Some in H as (ts1 & H1 & [= <-]).
    by apply fmap_Some in H1 as (l & _ & ->).
  - intros H. apply bind_Some in H as (ts1 & H1 & [= <-]).
    by apply fmap_Some in H1 as (l & _ & ->).
Qed.

Lemma executor_run_events_completedTasks_mono evs (ts ts' : TaskExecutor.State) :
  TaskExecutor.run_events evs ts = Some ts' →
  TaskExecutor.completedTasks ts ⊆ TaskExecutor.completedTasks ts'.
Proof.
  revert ts. induction evs as [|ev evs IH]; intros ts; simpl.
  - by intros [= ->].
  - intros H. apply bind_Some in H as (ts1 & H1 & H2).
    apply executor_completedTasks_mono in H1. apply IH in H2. set_solver.
Qed.

(** C10. [startFirstTask] adds the task's id to [completedTasks] before it
    looks at the abort signal, in the closure of [WaggleDanceMachine.run]
    and in [TaskExecutor] alike.  When the signal is already aborted the
    call starts no execution and writes no result, and the id remains in
    [completedTasks] through every later event; in the machine, if no
    earlier execution for that id is pending, [taskResults] never gets an
    entry written for it. *)
Theorem startFirstTask_claims_before_abort_check
    (s : State) (ts : TaskExecutor.State) (task : DAGNode) (d : DAG) :
  id task ∈ completedTasks (startFirstTask task d s)
  ∧ id task ∈ TaskExecutor.completedTasks (TaskExecutor.startFirstTask task d ts)
  ∧ (aborted s = true →
     firstExecuting (startFirstTask task d s) = firstExecuting s
     ∧ executing (startFirstTask task d s) = executing s
     ∧ taskResults (startFirstTask task d s) = taskResults s
     ∧ ∀ evs s', run_events evs (startFirstTask task d s) = Some s' →
         id task ∈ completedTasks s'
         ∧ (Forall (λ n, id n ≠ id task) (executing s) →
            Forall (λ nd, id (fst nd) ≠ id task) (firstExecuting s) →
            taskResults s' !! id task = taskResults s !! id task))
  ∧ (TaskExecutor.aborted ts = true →
     TaskExecutor.executing (TaskExecutor.startFirstTask task d ts)
     = TaskExecutor.executing ts
     ∧ TaskExecutor.resolvedFirstTask (TaskExecutor.startFirstTask task d ts)
       = TaskExecutor.resolvedFirstTask ts
     ∧ ∀ evs ts', TaskExecutor.run_events evs (TaskExecutor.startFirstTask task d ts)
                  = Some ts' →
         id task ∈ TaskExecutor.completedTasks ts').
Proof.
  split_and!.
  - rewrite startFirstTask_completedTasks. set_solver.
  - unfold TaskExecutor.startFirstTask. simpl.
    destruct (TaskExecutor.aborted ts); simpl; set_solver.
  - intros Hab.
    assert (Hs : startFirstTask task d s
                 = set_firstTaskState fts_error
                     (set_completedTasks (completedTasks s ∪ {[ id task ]})
                        (set_optimisticFirstTaskState (mkOFTS started (Some (id task)))
                           (set_firstTaskState started s)))).
    { unfold startFirstTask. simpl. by rewrite Hab. }
    split_and!; try (by rewrite Hs).
    intros evs s' Hrun. split.
    + apply (run_events_completedTasks_mono _ _ _ Hrun).
      rewrite startFirstTask_completedTasks. set_solver.
    + intros Hex Hfe.
      rewrite (run_events_quiet (id task) _ _ _ Hrun); [by rewrite Hs|].
      rewrite Hs. by split_and!.
  - intros Hab. unfold TaskExecutor.startFirstTask. rewrite Hab. simpl.
    split_and!; try done.
    intros evs ts' Hrun.
    apply (executor_run_events_completedTasks_mono _ _ _ Hrun). simpl. set_solver.
Qed.

(** [run] entered with the signal already aborted: the planner's call of
    [startFirstTask] on [nodeA] claims the id and executes nothing. *)
Example startFirstTask_aborted_ex :
  id nodeA ∈ completedTasks (startFirstTask nodeA planAB (run "goal" emptyDAG false true))
  ∧ firstExecuting (startFirstTask nodeA planAB (run "goal" emptyDAG false true)) = []
  ∧ taskResults (startFirstTask nodeA planAB (run "goal" emptyDAG false true)) !! id nodeA = None
  ∧ firstTaskState (optimisticFirstTaskState
                      (startFirstTask nodeA planAB (run "goal" emptyDAG false true)))
    = fts_error.
Proof. split_and!; vm_compute; reflexivity. Qed.

End WaggleDanceMachineProps.

(* ===================================================================== *)
(** * Further properties *)
(* ===================================================================== *)

(** ** Finish packets, their label and their status *)

Module PacketProps.

Lemma findLast_app_miss {A} (p : A → bool) (l : list A) (x : A) :
  p x = false → findLast p (l ++ [x]) = findLast p l.
Proof.
  intros Hx. induction l as [|y l IH]; simpl.
  - by rewrite Hx.
  - by rewrite IH.
Qed.

Lemma findLast_None_inv {A} (p : A → bool) (l : list A) :
  findLast p l = None → Forall (λ y, p y = false) l.
Proof.
  induction l as [|x l IH]; simpl; [constructor|].
  destruct (findLast p l); [done|]. destruct (p x) eqn:Hx; [done|].
  intros _. constructor; [done|]. by apply IH.
Qed.

(** What [findFinishPacket] returns is a finishing packet of the sequence,
    or the substitute. *)
Lemma findFinishPacket_cases (packets : list AgentPacket) :
  (∃ pre p post, packets = pre ++ p :: post ∧ finishing p
                 ∧ Forall (λ q, ¬ finishing q) post
                 ∧ findFinishPacket packets = p)
  ∨ (Forall (λ q, ¬ finishing q) packets
     ∧ findFinishPacket packets
       = Packet.error fatal
           ("No result packet found in " +:+ pretty (length packets) +:+ " packets")).
Proof.
  unfold findFinishPacket.
  destruct (findLast _ packets) as [p|] eqn:Hfind.
  - left. apply findLast_Some_inv in Hfind as (pre & post & -> & Hp & Hpost).
    exists pre, p, post. split_and!; try done.
    + by apply isAgentPacketFinishedType_iff.
    + eapply Forall_impl; [exact Hpost|]. intros q Hq Hfin.
      apply finishing_true in Hfin. simpl in Hq. congruence.
  - right. split; [|done].
    apply findLast_None_inv in Hfind.
    eapply Forall_impl; [exact Hfind|]. intros q Hq Hfin.
    apply finishing_true in Hfin. simpl in Hq. congruence.
Qed.

Lemma findFinishPacket_finishing (packets : list AgentPacket) :
  finishing (findFinishPacket packets).
Proof.
  destruct (findFinishPacket_cases packets)
    as [(pre & p & post & _ & Hp & _ & ->)|[_ ->]]; [done|].
  unfold finishing, finishing_tag. simpl. tauto.
Qed.

(** X1. As the packets of a task arrive one by one: the finish packet is
    always of a finished type; a finished-type packet that arrives becomes
    the finish packet; any other packet leaves an earlier finish packet in
    place, and while there is none only the count in the substitute's
    message grows. *)
Theorem findFinishPacket_stream (packets : list AgentPacket) (p : AgentPacket) :
  finishing (findFinishPacket packets)
  ∧ (finishing p → findFinishPacket (packets ++ [p]) = p)
  ∧ (¬ finishing p → Exists finishing packets →
     findFinishPacket (packets ++ [p]) = findFinishPacket packets)
  ∧ (¬ finishing p → Forall (λ q, ¬ finishing q) packets →
     findFinishPacket (packets ++ [p])
     = Packet.error fatal
         ("No result packet found in " +:+ pretty (S (length packets)) +:+ " packets")).
Proof.
  split_and!.
  - apply findFinishPacket_finishing.
  - intros Hp. unfold findFinishPacket.
    rewrite (findLast_app_hit _ packets [] p); [done| |constructor].
    by apply finishing_true.
  - intros Hp Hex. unfold findFinishPacket.
    rewrite findLast_app_miss by (by apply not_finishing_false).
    destruct (findLast _ packets) as [q|] eqn:Hfind; [done|].
    apply findLast_None_inv in Hfind. exfalso.
    apply Exists_exists in Hex as (q & Hin & Hq).
    rewrite Forall_forall in Hfind.
    specialize (Hfind q Hin). simpl in Hfind.
    apply finishing_true in Hq. congruence.
  - intros Hp Hall. unfold findFinishPacket.
    rewrite findLast_app_miss by (by apply not_finishing_false).
    rewrite findLast_none.
    + rewrite length_app. simpl. by rewrite Nat.add_1_r.
    + eapply Forall_impl; [exact Hall|]. intros q Hq. by apply not_finishing_false.
Qed.

(** X2. [display] hides exactly the packets of type [handleToolStart],
    [handleLLMStart] and [handleToolEnd], and the finish packet of a task is
    never hidden: its label is the name of its type, one of the seven
    finished types. *)
Theorem finish_packet_display (tool : any → string) (packets : list AgentPacket)
    (packet : AgentPacket) :
  (display tool packet = None
   ↔ Packet.type packet = Ty.handleToolStart ∨ Packet.type packet = Ty.handleLLMStart
     ∨ Packet.type packet = Ty.handleToolEnd)
  ∧ display tool (findFinishPacket packets)
    = Some (tag_name (Packet.type (findFinishPacket packets)))
  ∧ finishing_tag (Packet.type (findFinishPacket packets)).
Proof.
  split_and!.
  - destruct packet; simpl; split; intros H;
      try discriminate H; try tauto;
      destruct H as [H|[H|H]]; discriminate H.
  - pose proof (findFinishPacket_finishing packets) as Hfin.
    destruct (findFinishPacket packets); simpl; try done;
      unfold finishing, finishing_tag in Hfin; simpl in Hfin;
      destruct Hfin as [H|[H|[H|[H|[H|[H|H]]]]]]; discriminate H.
  - apply findFinishPacket_finishing.
Qed.

(** X3. The status of a task's finish packet is [done], [error] or [working],
    never [idle] or [wait]; it is [working] exactly when the finish packet
    is a [handleRetrieverError], and [error] when the sequence holds no
    packet of a finished type. *)
Theorem finish_packet_status (packets : list AgentPacket) :
  (mapPacketTypeToStatus (Some (Packet.type (findFinishPacket packets))) = TaskStatus.done
   ∨ mapPacketTypeToStatus (Some (Packet.type (findFinishPacket packets))) = TaskStatus.error
   ∨ mapPacketTypeToStatus (Some (Packet.type (findFinishPacket packets))) = TaskStatus.working)
  ∧ (mapPacketTypeToStatus (Some (Packet.type (findFinishPacket packets))) = TaskStatus.working
     ↔ Packet.type (findFinishPacket packets) = Ty.handleRetrieverError)
  ∧ (Forall (λ q, ¬ finishing q) packets →
     mapPacketTypeToStatus (Some (Packet.type (findFinishPacket packets))) = TaskStatus.error).
Proof.
  pose proof (findFinishPacket_finishing packets) as Hfin.
  unfold finishing, finishing_tag in Hfin.
  split_and!.
  - destruct Hfin as [H|[H|[H|[H|[H|[H|H]]]]]]; rewrite H; simpl; tauto.
  - destruct Hfin as [H|[H|[H|[H|[H|[H|H]]]]]]; rewrite H; simpl; split; done.
  - intros Hall. destruct (findFinishPacket_cases packets)
      as [(pre & p & post & -> & Hp & _ & _)|[_ ->]]; [|done].
    apply Forall_app in Hall as [_ Hall]. by inversion Hall.
Qed.

(** X4. The finished types of AgentPacket.ts and the statuses [done] and
    [error] of the status mapper name the same tags but for three:
    [handleChainEnd] has status [done] and [handleToolError] has status
    [error] without being finished types, and [handleRetrieverError] is a
    finished type with status [working]. *)
Theorem finished_types_vs_status (type : AgentPacketType) :
  isAgentPacketFinishedType type = true
  ↔ ((mapPacketTypeToStatus (Some type) = TaskStatus.done
      ∨ mapPacketTypeToStatus (Some type) = TaskStatus.error)
     ∧ type ≠ Ty.handleChainEnd ∧ type ≠ Ty.handleToolError)
    ∨ type = Ty.handleRetrieverError.
Proof.
  destruct type; (split; [intros H | intros [([H|H] & H1 & H2)|H]]);
    try done; try (by right); try (left; split_and!; try done; (by left) || (by right)).
Qed.

End PacketProps.

(** ** Entry nodes and the hooked-up graph *)

Module GraphProps.
Import Graph WaggleDanceMachine Scenarios WaggleDanceMachineProps.

Lemma no_incoming_true (dag : DAG) (node : DAGNode) :
  no_incoming dag node = true ↔ ∀ edge, In edge (edges dag) → tId edge ≠ id node.
Proof.
  unfold no_incoming. rewrite forallb_forall. split.
  - intros H edge Hin. apply H in Hin. by apply negb_true_iff, bool_decide_eq_false in Hin.
  - intros H edge Hin. apply negb_true_iff, bool_decide_eq_false. by apply H.
Qed.

Lemma filter_sublist {A} (p : A → bool) (l : list A) : sublist (List.filter p l) l.
Proof.
  induction l as [|x l IH]; simpl; [constructor|].
  destruct (p x); by constructor.
Qed.

Lemma filter_all {A} (p : A → bool) (l : list A) :
  (∀ x, In x l → p x = true) → List.filter p l = l.
Proof.
  induction l as [|x l IH]; simpl; [done|]. intros H.
  rewrite (H x) by (by left). f_equal. apply IH. intros y Hy. apply H. by right.
Qed.

Lemma filter_none {A} (p : A → bool) (l : list A) :
  (∀ x, In x l → p x = false) → List.filter p l = [].
Proof.
  induction l as [|x l IH]; simpl; [done|]. intros H.
  rewrite (H x) by (by left). apply IH. intros y Hy. apply H. by right.
Qed.

(** X5. [findNodesWithNoIncomingEdges] returns, in the order of [dag.nodes],
    exactly the nodes whose id is the target of no edge; with no edges at
    all it returns every node. *)
Theorem findNodesWithNoIncomingEdges_spec (dag : DAG) :
  (∀ node, In node (findNodesWithNoIncomingEdges dag)
           ↔ In node (nodes dag) ∧ ∀ edge, In edge (edges dag) → tId edge ≠ id node)
  ∧ sublist (findNodesWithNoIncomingEdges dag) (nodes dag)
  ∧ (edges dag = [] → findNodesWithNoIncomingEdges dag = nodes dag).
Proof.
  rewrite findNodesWithNoIncomingEdges_filter. split_and!.
  - intros node. rewrite filter_In, no_incoming_true. tauto.
  - apply filter_sublist.
  - intros He. apply filter_all. intros node _. apply no_incoming_true.
    rewrite He. by intros edge [].
Qed.

Lemma min_by {A} (f : A → nat) (l : list A) :
  l ≠ [] → ∃ x, In x l ∧ ∀ y, In y l → (f x ≤ f y)%nat.
Proof.
  induction l as [|x l IH]; [done|]. intros _.
  destruct l as [|z l].
  - exists x. split; [by left|]. intros y [<-|[]]. lia.
  - destruct IH as (m & Hm & Hmin); [done|].
    destruct (decide (f x ≤ f m)%nat) as [Hle|Hgt].
    + exists x. split; [by left|]. intros y [<-|Hy]; [lia|].
      specialize (Hmin y Hy). lia.
    + exists m. split; [by right|]. intros y [<-|Hy]; [lia|]. by apply Hmin.
Qed.

(** X6. A non-empty graph whose edges go up along some ranking of the ids (so
    it has no cycle) and start at ids of its nodes has an entry node:
    [findNodesWithNoIncomingEdges] does not come back empty. *)
Theorem ranked_graph_has_entry_node (dag : DAG) (rank : string → nat) :
  Forall (λ edge, (rank (sId edge) < rank (tId edge))%nat) (edges dag) →
  Forall (λ edge, ∃ node, In node (nodes dag) ∧ id node = sId edge) (edges dag) →
  nodes dag ≠ [] →
  ∃ node, In node (findNodesWithNoIncomingEdges dag).
Proof.
  intros Hrank Hsrc Hne.
  destruct (min_by (λ node, rank (id node)) (nodes dag) Hne) as (m & Hm & Hmin).
  exists m. rewrite findNodesWithNoIncomingEdges_filter, filter_In, no_incoming_true.
  split; [done|]. intros edge Hin Ht.
  rewrite Forall_forall in Hrank. rewrite Forall_forall in Hsrc.
  apply list_elem_of_In in Hin.
  specialize (Hrank edge Hin). destruct (Hsrc edge Hin) as (src & Hsrcin & Hid).
  specialize (Hmin src Hsrcin). simpl in Hmin. rewrite Hid, <- Ht in Hmin. lia.
Qed.

Lemma ranked_graph_has_entry_node_witness :
  ∃ node, In node (findNodesWithNoIncomingEdges planAB).
Proof.
  apply (ranked_graph_has_entry_node planAB (λ i, if bool_decide (i = "1-0") then 0%nat else 1%nat)).
  - repeat constructor.
  - repeat constructor. exists nodeA. split; [by left|done].
  - done.
Defined.

(** X7. After the hook-up the root is the only entry node of the execution
    graph, provided the plan does not use the root's id for a node of its
    own or as the target of an edge: every plan node then has an incoming
    edge. *)
Theorem hookup_single_entry (goal : string) (plan : DAG) :
  Forall (λ node, id node ≠ rootPlanId) (nodes plan) →
  Forall (λ edge, tId edge ≠ rootPlanId) (edges plan) →
  findNodesWithNoIncomingEdges (hookup goal plan) = initialNodes goal.
Proof.
  intros Hnodes Hedges. rewrite Forall_forall in Hnodes. rewrite Forall_forall in Hedges.
  rewrite findNodesWithNoIncomingEdges_filter. unfold hookup, initialNodes. simpl.
  rewrite findNodesWithNoIncomingEdges_filter.
  set (d := mkDAG _ _).
  assert (Hroot : no_incoming d
            (DAGNodeClass rootPlanId "👸🐝 Queen Bee" "Planning how to achieve your goal" goal)
          = true).
  { apply no_incoming_true. simpl. intros edge Hin.
    apply in_app_or in Hin as [Hin|Hin].
    - apply Hedges. by apply list_elem_of_In.
    - apply in_map_iff in Hin as (node & <- & Hn). simpl.
      apply filter_In in Hn as [Hn _]. apply Hnodes. by apply list_elem_of_In. }
  rewrite Hroot. f_equal. apply filter_none. intros node Hin.
  destruct (no_incoming d node) eqn:Hd; [|done]. exfalso.
  rewrite no_incoming_true in Hd. simpl in Hd.
  destruct (no_incoming plan node) eqn:Hp.
  - apply (Hd (DAGEdgeClass rootPlanId (id node))); [|done].
    apply in_or_app. right. apply in_map_iff. exists node. split; [done|].
    by apply filter_In.
  - assert (Hp' : ¬ ∀ edge, In edge (edges plan) → tId edge ≠ id node).
    { rewrite <- no_incoming_true. congruence. }
    apply Hp'. intros edge He. apply Hd. apply in_or_app. by left.
Qed.

Lemma hookup_single_entry_witness :
  findNodesWithNoIncomingEdges (hookup "goal" planAB) = initialNodes "goal".
Proof.
  apply (hookup_single_entry "goal" planAB).
  - repeat constructor; discriminate.
  - repeat constructor; discriminate.
Defined.

End GraphProps.

(** ** Planning, selection and the ends of the loop *)

Module SchedulerProps.
Import Graph WaggleDanceMachine Scenarios Notions WaggleDanceMachineProps.

(** X8. When planning returns, the "no root node" error cannot occur: the run
    enters the scheduling loop with the root and all plan nodes to do,
    marks planning as done, and sends on the root node one [done] packet
    whose text counts the plan's nodes plus one and the plan's edges plus
    one per entry node of the plan. *)
Theorem planning_summary (plan : DAG) (s : State) :
  phase (planTasks_resolved plan s) = Scheduling
  ∧ isDonePlanning (planTasks_resolved plan s) = true
  ∧ toDoNodes (planTasks_resolved plan s)
    = DAGNodeClass rootPlanId "👸🐝 Queen Bee" "Planning how to achieve your goal" (goal s)
      :: nodes plan
  ∧ sent (planTasks_resolved plan s)
    = sent s
      ++ [(Packet.done
             ("Planned an execution graph with "
              +:+ pretty (S (length (nodes plan))) +:+ " tasks and "
              +:+ pretty (length (edges plan)
                          + length (List.filter (no_incoming plan) (nodes plan)))%nat
              +:+ " edges."),
           DAGNodeClass rootPlanId "👸🐝 Queen Bee" "Planning how to achieve your goal"
                        (goal s))].
Proof.
  unfold planTasks_resolved, hookup, initialNodes, initialEdges, find_first. simpl.
  split_and!; try done.
  by rewrite length_app, length_map, findNodesWithNoIncomingEdges_filter.
Qed.

Lemma filter_head_split {A} (p : A → bool) (l : list A) (x : A) :
  head (List.filter p l) = Some x →
  ∃ pre post, l = pre ++ x :: post ∧ Forall (λ y, p y = false) pre ∧ p x = true.
Proof.
  induction l as [|y l IH]; simpl; [done|].
  destruct (p y) eqn:Hy.
  - simpl. intros [= ->]. by exists [], l.
  - intros H. destruct (IH H) as (pre & post & -> & Hpre & Hx).
    exists (y :: pre), post. split_and!; try done. by constructor.
Qed.

Lemma filter_filter {A} (p q : A → bool) (l : list A) :
  List.filter q (List.filter p l) = List.filter (λ x, p x && q x) l.
Proof.
  induction l as [|x l IH]; simpl; [done|].
  destruct (p x); simpl; [|done]. destruct (q x); by rewrite IH.
Qed.

Lemma not_ready_held_back d c node :
  negb (bool_decide (id node ∈ c))
  && forallb (λ edge, bool_decide (sId edge ∈ c))
       (List.filter (λ edge, bool_decide (tId edge = id node)) (edges d)) = false →
  held_back d c node.
Proof.
  intros H. apply andb_false_iff in H as [H|H].
  - left. by apply negb_false_iff, bool_decide_eq_true in H.
  - right. apply not_true_iff_false in H.
    destruct (existsb (λ edge, bool_decide (tId edge = id node)
                               && negb (bool_decide (sId edge ∈ c))) (edges d)) eqn:Hex.
    + apply existsb_exists in Hex as (edge & Hin & He).
      apply andb_true_iff in He as [Ht Hs]. exists edge. split_and!; [done| |].
      * by apply bool_decide_eq_true in Ht.
      * by apply negb_true_iff, bool_decide_eq_false in Hs.
    + exfalso. apply H, forallb_forall. intros edge Hin.
      apply filter_In in Hin as [Hin Ht].
      destruct (bool_decide (sId edge ∈ c)) eqn:Hs; [done|].
      assert (existsb (λ edge, bool_decide (tId edge = id node)
                               && negb (bool_decide (sId edge ∈ c))) (edges d) = true).
      { apply existsb_exists. exists edge. by rewrite Ht, Hs. }
      congruence.
Qed.

(** X9. Selection is stable: the loop dispatches the first node of the to-do
    list that is neither completed nor waiting for a predecessor, takes
    exactly that entry off the list, and keeps the others in order. *)
Theorem loop_dispatches_first_ready d c todo fts ab task todo' :
  loop_iteration d c todo fts ab = LoopDispatch task todo' →
  ∃ pre post, todo = pre ++ task :: post
    ∧ Forall (held_back d c) pre
    ∧ ¬ held_back d c task
    ∧ todo' = pre ++ post.
Proof.
  intros H.
  pose proof (loop_iteration_dispatch_inv _ _ _ _ _ _ _ H)
    as (_ & _ & _ & _ & Hnc & Hpred & ->).
  unfold loop_iteration in H.
  destruct (isGoalReached d c); [done|]. destruct ab; [done|].
  destruct (_ || _); [done|]. destruct (_ && _); [done|].
  unfold pendingCurrentDagLayerTasks in H. rewrite filter_filter in H.
  destruct (head _) as [task0|] eqn:Hhead; [|done]. injection H as -> _.
  apply filter_head_split in Hhead as (pre & post & -> & Hpre & _).
  exists pre, post. split_and!; [done| | |].
  - eapply Forall_impl; [exact Hpre|]. intros node Hn. by apply not_ready_held_back.
  - intros [Hc|(edge & Hin & Ht & Hs)]; [done|]. by apply Hs, Hpred.
  - assert (Hnotin : ¬ In task pre).
    { intros Hin. rewrite Forall_forall in Hpre. apply list_elem_of_In in Hin.
      apply Hpre, not_ready_held_back in Hin as [Hc|(edge & Hin & Ht & Hs)]; [done|].
      by apply Hs, Hpred. }
    destruct (indexOf_In (pre ++ task :: post) task) as (pre' & post' & Heq & Hpre' & ->);
      [apply in_or_app; right; by left|].
    rewrite Heq. rewrite splice1_middle.
    clear -Heq Hnotin Hpre'. revert pre' Heq Hpre'.
    induction pre as [|y pre IH]; intros [|y' pre'] Heq Hpre'; simpl in *.
    + by injection Heq as <-.
    + injection Heq as <- _. exfalso. apply Hpre'. by left.
    + injection Heq as -> _. exfalso. apply Hnotin. by left.
    + injection Heq as <- Heq. f_equal. apply IH; [|done|].
      * intros Hin. apply Hnotin. by right.
      * intros Hin. apply Hpre'. by right.
Qed.

Lemma loop_dispatches_first_ready_witness :
  ∃ pre post, toDoNodes planned = pre ++ nodeA :: post
    ∧ Forall (held_back (hookup "goal" planAB) (completedTasks planned)) pre
    ∧ ¬ held_back (hookup "goal" planAB) (completedTasks planned) nodeA
    ∧ [DAGNodeClass rootPlanId "👸🐝 Queen Bee" "Planning how to achieve your goal" "goal"; nodeB]
      = pre ++ post.
Proof.
  apply (loop_dispatches_first_ready (hookup "goal" planAB) (completedTasks planned)
           (toDoNodes planned) not_started false nodeA).
  vm_compute. reflexivity.
Defined.

Lemma held_back_not_ready d c node :
  held_back d c node → id node ∉ c →
  forallb (λ edge, bool_decide (sId edge ∈ c))
    (List.filter (λ edge, bool_decide (tId edge = id node)) (edges d)) = false.
Proof.
  intros [Hc|(edge & Hin & Ht & Hs)] Hnc; [done|].
  apply not_true_iff_false. rewrite forallb_forall. intros H.
  apply Hs. apply (bool_decide_eq_true_1 (sId edge ∈ c)), H.
  apply filter_In. split; [done|]. by apply bool_decide_eq_true_2.
Qed.

(** X10. When some node is still to do and uncompleted, and every node to do is
    completed or waits for an uncompleted predecessor (one that is still
    executing, say), the iteration does not sleep: it throws "no task". *)
Theorem waiting_nodes_throw_no_task d c todo fts :
  isGoalReached d c = false →
  fts ≠ started →
  (∃ node, In node todo ∧ id node ∉ c) →
  Forall (held_back d c) todo →
  loop_iteration d c todo fts false = LoopThrow "no task".
Proof.
  intros Hgoal Hfts (node & Hin & Hnc) Hheld.
  unfold loop_iteration. rewrite Hgoal.
  set (pending := List.filter _ todo).
  assert (Hp : In node pending).
  { apply filter_In. split; [done|]. by apply negb_true_iff, bool_decide_eq_false. }
  assert (Hready : pendingCurrentDagLayerTasks d c pending = []).
  { apply GraphProps.filter_none. intros x Hx.
    apply filter_In in Hx as [Hx Hxc].
    apply negb_true_iff, bool_decide_eq_false in Hxc.
    apply held_back_not_ready; [|done].
    rewrite Forall_forall in Hheld. by apply Hheld, list_elem_of_In. }
  rewrite (bool_decide_eq_false_2 (length pending = 0)).
  2:{ destruct pending; [done|]. simpl. lia. }
  rewrite (bool_decide_eq_false_2 (fts = started)) by done.
  rewrite Hready. simpl. done.
Qed.

Lemma waiting_nodes_throw_no_task_witness :
  loop_iteration (hookup "goal" planAB) {[ rootPlanId ]}
    [DAGNodeClass rootPlanId "👸🐝 Queen Bee" "Planning how to achieve your goal" "goal"; nodeB]
    not_started false
  = LoopThrow "no task".
Proof.
  apply waiting_nodes_throw_no_task.
  - vm_compute. reflexivity.
  - done.
  - exists nodeB. split; [right; by left|].
    apply (bool_decide_eq_false_1 (id nodeB ∈ ({[ rootPlanId ]} : gset string))).
    vm_compute. reflexivity.
  - constructor; [left; set_solver|]. constructor; [|constructor].
    right. exists (DAGEdgeClass "1-0" "1-1"). split_and!; [by left|done|].
    apply (bool_decide_eq_false_1 ("1-0" ∈ ({[ rootPlanId ]} : gset string))).
    vm_compute. reflexivity.
Defined.

(** X11. The loop throws with two messages only: "Signal aborted", exactly when
    the abort signal is set, and "no task"; the error "No pending tasks,
    and no executable tasks, but goal not reached." is never thrown.  It
    throws only while the goal is not reached. *)
Theorem loop_throw_messages d c todo fts ab message :
  loop_iteration d c todo fts ab = LoopThrow message →
  isGoalReached d c = false
  ∧ ((ab = true ∧ message = "Signal aborted")
     ∨ (ab = false ∧ fts ≠ started ∧ message = "no task")).
Proof.
  unfold loop_iteration. destruct (isGoalReached d c); [done|].
  destruct ab; [intros [= <-]; split; [done|by left]|].
  set (pending := List.filter _ todo).
  destruct (bool_decide (length pending = 0)) eqn:Hlen; simpl; [done|].
  destruct (bool_decide (fts = started)) eqn:Hfts; simpl; [done|].
  apply bool_decide_eq_false in Hfts.
  rewrite andb_false_r.
  destruct (head _); [done|]. intros [= <-]. split; [done|]. by right.
Qed.

Lemma loop_throw_messages_witness :
  isGoalReached (hookup "goal" planAB) (completedTasks started_aborted) = false
  ∧ ((true = true ∧ "Signal aborted" = "Signal aborted")
     ∨ (true = false ∧ started ≠ started ∧ "Signal aborted" = "no task")).
Proof.
  apply (loop_throw_messages (hookup "goal" planAB) (completedTasks started_aborted)
           (toDoNodes started_aborted) started true "Signal aborted").
  vm_compute. reflexivity.
Defined.

(** *** Abort, and the end of a run *)

Lemma settle_sublist {A} `{EqDecision A} (x : A) (l l' : list A) :
  settle x l = Some l' → sublist l' l.
Proof.
  revert l'. induction l as [|y l IH]; intros l'; simpl; [done|].
  destruct (decide (y = x)).
  - intros [= <-]. by constructor.
  - intros H. apply fmap_Some in H as (l1 & H1 & ->). constructor. by apply IH.
Qed.

Lemma apply_event_aborted ev s s' :
  apply_event ev s = Some s' → aborted s = true →
  aborted s' = true
  ∧ sublist (executing s') (executing s)
  ∧ sublist (firstExecuting s') (firstExecuting s).
Proof.
  intros H Hab. destruct ev; event_inv H; simpl; try done.
  - unfold startFirstTask. simpl. by rewrite Hab.
  - match goal with |- context [startFirstTask_resolved ?t ?d ?r ?s0] =>
      destruct (startFirstTask_resolved_other t d r s0) as (-> & -> & -> & _) end.
    simpl. split_and!; [done..|]. by eapply settle_sublist.
  - split_and!; [done..|]. by eapply settle_sublist.
  - match goal with |- context [loop_step ?d ?s0] =>
      destruct (loop_step_aborted d s0 Hab) as (-> & -> & -> & _) end.
    done.
  - split_and!; [done| |done]. by eapply settle_sublist.
  - split_and!; [done| |done]. by eapply settle_sublist.
Qed.

(** X12. Once the abort signal is set it stays set, and no execution is started
    any more, by the loop or for a first task: the pending [executeTask]
    calls can only settle. *)
Theorem abort_stops_dispatch (s s' : State) (evs : list Event) :
  aborted s = true →
  run_events evs s = Some s' →
  aborted s' = true
  ∧ sublist (executing s') (executing s)
  ∧ sublist (firstExecuting s') (firstExecuting s).
Proof.
  revert s. induction evs as [|ev evs IH]; intros s Hab; simpl.
  - by intros [= ->].
  - intros H. apply bind_Some in H as (s1 & H1 & H2).
    destruct (apply_event_aborted _ _ _ H1 Hab) as (Hab1 & Hex1 & Hfe1).
    destruct (IH _ Hab1 H2) as (Hab' & Hex' & Hfe').
    split_and!; [done| |]; by etrans.
Qed.

Lemma abort_stops_dispatch_witness :
  aborted (task_rejected nodeA "boom"
             (set_executing []
                (set_phase (Finished (Thrown "Signal aborted"))
                   (set_aborted true dispatchedA)))) = true
  ∧ sublist (executing (task_rejected nodeA "boom"
                          (set_executing []
                             (set_phase (Finished (Thrown "Signal aborted"))
                                (set_aborted true dispatchedA)))))
            (executing (set_aborted true dispatchedA))
  ∧ sublist (firstExecuting (task_rejected nodeA "boom"
                               (set_executing []
                                  (set_phase (Finished (Thrown "Signal aborted"))
                                     (set_aborted true dispatchedA)))))
            (firstExecuting (set_aborted true dispatchedA)).
Proof.
  apply (abort_stops_dispatch (set_aborted true dispatchedA) _
           [EvLoop; EvTaskRejected nodeA "boom"]).
  - reflexivity.
  - vm_compute. reflexivity.
Defined.

Lemma apply_event_finished ev s s' outcome :
  apply_event ev s = Some s' → phase s = Finished outcome →
  phase s' = Finished outcome
  ∧ toDoNodes s' = toDoNodes s
  ∧ completedTasks s ⊆ completedTasks s'
  ∧ sublist (executing s') (executing s).
Proof.
  intros H Hph. pose proof (apply_event_completedTasks_mono _ _ _ H) as Hmono.
  assert (Hnp : is_planning s = false) by (unfold is_planning; by rewrite Hph).
  destruct ev; event_inv H; simpl; try done; try congruence.
  - match goal with |- context [startFirstTask_resolved ?t ?d ?r ?s0] =>
      pose proof (startFirstTask_resolved_frozen t d r s0) as (_ & Hp & _);
      pose proof (startFirstTask_resolved_other t d r s0) as (_ & He & _);
      pose proof (startFirstTask_resolved_completedTasks t d r s0) as Hc;
      assert (Ht : toDoNodes (startFirstTask_resolved t d r s0) = toDoNodes s0)
    end.
    { unfold startFirstTask_resolved. simpl.
      destruct (find_first _ _); [|done]. destruct (falsy result); [done|].
      by destruct result. }
    rewrite Hp, He, Ht. simpl. done.
  - split_and!; [done..|]. by eapply settle_sublist.
  - split_and!; [done..|]. by eapply settle_sublist.
Qed.

Lemma run_events_finished (s s' : State) (outcome : RunOutcome) (evs : list Event) :
  phase s = Finished outcome →
  run_events evs s = Some s' →
  phase s' = Finished outcome
  ∧ toDoNodes s' = toDoNodes s
  ∧ completedTasks s ⊆ completedTasks s'
  ∧ sublist (executing s') (executing s).
Proof.
  revert s. induction evs as [|ev evs IH]; intros s Hph; simpl.
  - by intros [= ->].
  - intros H. apply bind_Some in H as (s1 & H1 & H2).
    destruct (apply_event_finished _ _ _ _ H1 Hph) as (Hph1 & Ht1 & Hc1 & He1).
    destruct (IH _ Hph1 H2) as (Hph' & Ht' & Hc' & He').
    split_and!; [done|congruence| |by etrans].
    intros x Hx. by apply Hc', Hc1.
Qed.

(** X13. The promise of [run] settles once: after [run] has returned or thrown,
    its outcome and the to-do list never change and no execution is
    started; calls that are still pending may settle, and a late success
    still completes its node. *)
Theorem run_outcome_is_final (s s' : State) (outcome : RunOutcome) (evs : list Event) :
  phase s = Finished outcome →
  run_events evs s = Some s' →
  phase s' = Finished outcome
  ∧ toDoNodes s' = toDoNodes s
  ∧ completedTasks s ⊆ completedTasks s'
  ∧ sublist (executing s') (executing s).
Proof. apply run_events_finished. Qed.

Lemma run_outcome_is_final_witness :
  phase lateA = Finished (Thrown "no task")
  ∧ toDoNodes lateA = toDoNodes thrownAB
  ∧ completedTasks thrownAB ⊆ completedTasks lateA
  ∧ sublist (executing lateA) (executing thrownAB).
Proof.
  apply (run_outcome_is_final thrownAB lateA (Thrown "no task")
           [EvTaskResolved nodeA (ResString "late")]).
  - vm_compute. reflexivity.
  - vm_compute. reflexivity.
Defined.

(** *** Dispatching each node once *)

Lemma loop_step_toDoNodes d s : sublist (toDoNodes (loop_step d s)) (toDoNodes s).
Proof.
  unfold loop_step.
  destruct (loop_iteration _ _ _ _ _) as [| | |task todo'] eqn:Hit; simpl; try done.
  apply dispatch_removes_task in Hit as (pre & post & -> & _ & ->).
  apply sublist_app; [done|]. by constructor.
Qed.

Lemma apply_event_toDoNodes ev s s' :
  apply_event ev s = Some s' → is_planning s = false →
  sublist (toDoNodes s') (toDoNodes s).
Proof.
  intros H Hnp. destruct ev; event_inv H; simpl; try done; try congruence.
  - unfold startFirstTask_resolved. simpl.
    destruct (find_first _ _); [|done]. destruct (falsy result); [done|].
    by destruct result.
  - apply loop_step_toDoNodes.
Qed.

Lemma run_events_toDoNodes evs s s' :
  run_events evs s = Some s' → is_planning s = false →
  sublist (toDoNodes s') (toDoNodes s).
Proof.
  revert s. induction evs as [|ev evs IH]; intros s; simpl.
  - by intros [= ->].
  - intros H Hnp. apply bind_Some in H as (s1 & H1 & H2).
    destruct (apply_event_after_planning _ _ _ H1 Hnp) as [_ Hnp1].
    etrans; [by apply (IH s1)|]. by apply (apply_event_toDoNodes ev).
Qed.

(** X14. With no node listed twice in the to-do list, the loop hands each node
    to [executeTask] at most once: once dispatched, a node is off the list
    for the rest of the run, whether its execution succeeds, fails or
    never settles, and no later iteration dispatches it again. *)
Theorem node_dispatched_once (s s1 s2 s3 : State) (evs : list Event) (n m : DAGNode) :
  NoDup (toDoNodes s) →
  apply_event EvLoop s = Some s1 →
  executing s1 = executing s ++ [n] →
  run_events evs s1 = Some s2 →
  apply_event EvLoop s2 = Some s3 →
  executing s3 = executing s2 ++ [m] →
  ¬ In n (toDoNodes s2) ∧ m ≠ n.
Proof.
  intros Hnd Hloop1 Hex1 Hrun Hloop2 Hex2.
  destruct (loop_event_dispatch _ _ _ Hloop1 Hex1) as (d & todo1 & Hd & Hit1).
  assert (Hs1 : toDoNodes s1 = todo1 ∧ is_planning s1 = false).
  { simpl in Hloop1. destruct (phase s) eqn:Hph; try done. rewrite Hd in Hloop1.
    injection Hloop1 as <-. unfold loop_step. rewrite Hit1.
    split; [done|]. unfold is_planning. simpl. by rewrite Hph. }
  destruct Hs1 as [Htodo1 Hnp1].
  apply dispatch_removes_task in Hit1 as (pre & post & Heq & _ & ->).
  rewrite Heq in Hnd. apply NoDup_app in Hnd as (Hpre & Hdisj & Hpost).
  apply NoDup_cons in Hpost as [Hnpost _].
  assert (Hn1 : ¬ In n (toDoNodes s1)).
  { rewrite Htodo1. intros Hin. apply in_app_or in Hin as [Hin|Hin].
    - apply list_elem_of_In in Hin. apply (Hdisj n Hin). by left.
    - by apply Hnpost, list_elem_of_In. }
  assert (Hn2 : ¬ In n (toDoNodes s2)).
  { intros Hin. apply Hn1. apply list_elem_of_In.
    eapply elem_of_sublist; [by apply list_elem_of_In|].
    by apply (run_events_toDoNodes evs s1). }
  split; [done|].
  destruct (loop_event_dispatch _ _ _ Hloop2 Hex2) as (d2 & todo2 & _ & Hit2).
  apply loop_iteration_dispatch_inv in Hit2 as (_ & _ & _ & Hin & _).
  by intros ->.
Qed.

Lemma node_dispatched_once_witness :
  ¬ In nodeA (toDoNodes (loop_step (hookup "goal" planAC) plannedAC)) ∧ nodeC ≠ nodeA.
Proof.
  apply (node_dispatched_once plannedAC
           (loop_step (hookup "goal" planAC) plannedAC)
           (loop_step (hookup "goal" planAC) plannedAC)
           (loop_step (hookup "goal" planAC) (loop_step (hookup "goal" planAC) plannedAC))
           [] nodeA nodeC).
  - apply (bool_decide_eq_true_1 (NoDup (toDoNodes plannedAC))). vm_compute. reflexivity.
  - reflexivity.
  - vm_compute. reflexivity.
  - reflexivity.
  - reflexivity.
  - vm_compute. reflexivity.
Defined.

(** X15. The root is never executed: its id is in [completedTasks] from the
    entry of [run] on, so in no run does the loop dispatch a node with the
    root's id. *)
Theorem root_never_dispatched
    (goal : string) (initDAG : DAG) (isDonePlanning abortedAtEntry : bool)
    (evs : list Event) (s s' : State) (n : DAGNode) :
  run_events evs (run goal initDAG isDonePlanning abortedAtEntry) = Some s →
  apply_event EvLoop s = Some s' →
  executing s' = executing s ++ [n] →
  rootPlanId ∈ completedTasks s ∧ id n ≠ rootPlanId.
Proof.
  intros Hrun Hloop Hex.
  assert (Hroot : rootPlanId ∈ completedTasks s).
  { apply (run_events_completedTasks_mono _ _ _ Hrun).
    unfold run. destruct (_ && _); simpl; set_solver. }
  split; [done|].
  destruct (loop_event_dispatch _ _ _ Hloop Hex) as (d & todo' & _ & Hit).
  apply loop_iteration_dispatch_inv in Hit as (_ & _ & _ & _ & Hnc & _).
  intros Heq. apply Hnc. by rewrite Heq.
Qed.

Lemma root_never_dispatched_witness :
  rootPlanId ∈ completedTasks planned ∧ id nodeA ≠ rootPlanId.
Proof.
  apply (root_never_dispatched "goal" emptyDAG false false [EvPlanResolved planAB]
           planned dispatchedAB nodeA).
  - reflexivity.
  - reflexivity.
  - vm_compute. reflexivity.
Defined.

(** *** Results and completion *)

Lemma apply_event_results_completed ev s s' :
  apply_event ev s = Some s' → results_completed s → results_completed s'.
Proof.
  intros H [Hres Hfe]. unfold results_completed.
  destruct ev; event_inv H; simpl; try done.
  - unfold startFirstTask. simpl. destruct (aborted s); simpl.
    + split; [intros k Hk; apply Hres in Hk; set_solver|].
      eapply Forall_impl; [exact Hfe|]. simpl. intros nd Hnd. set_solver.
    + split; [intros k Hk; apply Hres in Hk; set_solver|].
      apply Forall_app. split.
      * eapply Forall_impl; [exact Hfe|]. simpl. intros nd Hnd. set_solver.
      * constructor; [simpl; set_solver|constructor].
  - match goal with Hs : settle _ _ = Some _ |- _ =>
      destruct (settle_Forall _ _ _ _ Hs Hfe) as [Hclaimed Hfe'] end.
    match goal with |- context [startFirstTask_resolved ?t ?d ?r ?s0] =>
      destruct (startFirstTask_resolved_other t d r s0) as (_ & _ & -> & ->);
      rewrite (startFirstTask_resolved_completedTasks t d r s0) end.
    simpl in *. split; [|done]. intros k Hk.
    destruct (decide (id task = k)) as [<-|Hne]; [done|].
    rewrite lookup_insert_ne in Hk by done. by apply Hres.
  - match goal with Hs : settle _ _ = Some _ |- _ =>
      destruct (settle_Forall _ _ _ _ Hs Hfe) as [Hclaimed Hfe'] end.
    done.
  - unfold loop_step. by destruct (loop_iteration _ _ _ _ _).
  - split.
    + intros k Hk. destruct (decide (id task = k)) as [<-|Hne]; [set_solver|].
      rewrite lookup_insert_ne in Hk by done. apply Hres in Hk. set_solver.
    + eapply Forall_impl; [exact Hfe|]. simpl. intros nd Hnd. set_solver.
Qed.

(** X16. In every state a run can reach, a node id that has an entry in
    [taskResults] is a member of [completedTasks]: results are only ever
    written for nodes that count as completed. *)
Theorem results_only_for_completed
    (goal : string) (initDAG : DAG) (isDonePlanning abortedAtEntry : bool)
    (evs : list Event) (s : State) (k : string) :
  run_events evs (run goal initDAG isDonePlanning abortedAtEntry) = Some s →
  is_Some (taskResults s !! k) →
  k ∈ completedTasks s.
Proof.
  intros Hrun.
  assert (Hinit : results_completed (run goal initDAG isDonePlanning abortedAtEntry)).
  { unfold run, results_completed. destruct (_ && _); simpl; split; try done;
      intros k' Hk'; rewrite lookup_empty in Hk'; by destruct Hk'. }
  revert Hrun Hinit. generalize (run goal initDAG isDonePlanning abortedAtEntry).
  induction evs as [|ev evs IH]; intros s0; simpl.
  - intros [= ->] [Hres _]. apply Hres.
  - intros H Hinv. apply bind_Some in H as (s1 & H1 & H2).
    apply (IH s1 H2). by apply (apply_event_results_completed ev s0).
Qed.

Lemma results_only_for_completed_witness :
  "1-0" ∈ completedTasks first_done_planned.
Proof.
  apply (results_only_for_completed "goal" emptyDAG false false
           [EvStartFirstTask nodeA planAB;
            EvFirstTaskResolved nodeA planAB (ResString "ok");
            EvPlanResolved planAB]).
  - vm_compute. reflexivity.
  - exists (ResString "ok"). vm_compute. reflexivity.
Defined.

(** *** Planning *)

Lemma apply_event_idle_while_planning ev s s' :
  apply_event ev s = Some s' → idle_while_planning s → idle_while_planning s'.
Proof.
  intros H Hinv.
  destruct (is_planning s) eqn:Hp.
  2:{ intros Hp'. destruct (apply_event_after_planning _ _ _ H Hp) as [_ Hp1]. congruence. }
  destruct (Hinv Hp) as (Hd & Ht & He). unfold idle_while_planning.
  destruct ev; event_inv H; simpl; try done; try congruence.
  - unfold startFirstTask. simpl. by destruct (aborted s).
  - match goal with |- context [startFirstTask_resolved ?t ?d ?r ?s0] =>
      pose proof (startFirstTask_resolved_frozen t d r s0) as (Hd' & Hph' & _);
      pose proof (startFirstTask_resolved_other t d r s0) as (_ & He' & _);
      assert (Ht' : toDoNodes (startFirstTask_resolved t d r s0) = toDoNodes s0)
    end.
    { unfold startFirstTask_resolved. simpl.
      destruct (find_first _ _); [|done]. destruct (falsy result); [done|].
      by destruct result. }
    rewrite Hd', He', Ht'. simpl. done.
  - match goal with Hs : settle _ (executing _) = Some _ |- _ =>
      rewrite He in Hs; discriminate Hs end.
  - match goal with Hs : settle _ (executing _) = Some _ |- _ =>
      rewrite He in Hs; discriminate Hs end.
Qed.

Lemma run_events_idle_while_planning evs s0 s :
  run_events evs s0 = Some s → idle_while_planning s0 → idle_while_planning s.
Proof.
  revert s0. induction evs as [|ev evs IH]; intros s0; simpl.
  - by intros [= ->] Hinv.
  - intros H Hinv. apply bind_Some in H as (s1 & H1 & H2).
    apply (IH s1 H2). by apply (apply_event_idle_while_planning ev s0).
Qed.

Lemma run_idle_while_planning goal initDAG isDonePlanning abortedAtEntry :
  idle_while_planning (run goal initDAG isDonePlanning abortedAtEntry).
Proof. unfold run, idle_while_planning. by destruct (_ && _). Qed.

(** X17. While [planTasks] is running, [run] has no execution graph and no
    to-do list, and the loop has dispatched nothing: the only task that can
    execute during planning is the optimistic first task. *)
Theorem nothing_dispatched_while_planning
    (goal : string) (initDAG : DAG) (isDonePlanning abortedAtEntry : bool)
    (evs : list Event) (s : State) :
  run_events evs (run goal initDAG isDonePlanning abortedAtEntry) = Some s →
  is_planning s = true →
  dag s = None ∧ toDoNodes s = [] ∧ executing s = [].
Proof.
  intros Hrun. apply (run_events_idle_while_planning _ _ _ Hrun).
  apply run_idle_while_planning.
Qed.

Lemma nothing_dispatched_while_planning_witness :
  dag first_failed = None ∧ toDoNodes first_failed = [] ∧ executing first_failed = [].
Proof.
  apply (nothing_dispatched_while_planning "goal" emptyDAG false false
           [EvStartFirstTask nodeA planAB; EvFirstTaskRejected nodeA planAB "boom"]).
  - vm_compute. reflexivity.
  - reflexivity.
Defined.

Lemma apply_event_sent ev s s' :
  apply_event ev s = Some s' → ∃ rest, sent s' = sent s ++ rest.
Proof.
  intros H. destruct ev; event_inv H; simpl; try (by exists []; rewrite app_nil_r);
    try (by eexists).
  - exists []. rewrite app_nil_r. unfold startFirstTask. simpl. by destruct (aborted s).
  - unfold startFirstTask_resolved. simpl.
    destruct (find_first _ _); [|by exists []; rewrite app_nil_r].
    destruct (falsy result); [by eexists|].
    destruct result; simpl; try (by exists []; rewrite app_nil_r); by eexists.
  - exists []. rewrite app_nil_r. unfold loop_step. by destruct (loop_iteration _ _ _ _ _).
Qed.

Lemma run_events_sent evs s s' :
  run_events evs s = Some s' → ∃ rest, sent s' = sent s ++ rest.
Proof.
  revert s. induction evs as [|ev evs IH]; intros s; simpl.
  - intros [= ->]. exists []. by rewrite app_nil_r.
  - intros H. apply bind_Some in H as (s1 & H1 & H2).
    destruct (apply_event_sent _ _ _ H1) as (r1 & Hr1).
    destruct (IH _ H2) as (r2 & Hr2). exists (r1 ++ r2).
    by rewrite Hr2, Hr1, app_assoc.
Qed.

(** X18. When [planTasks] throws, [run] sends a fatal error packet on the root
    node and returns the error: the scheduling loop never starts, so no
    node is dispatched and the graph stays unassigned, whatever happens
    afterwards. *)
Theorem planning_failure_ends_run
    (goal : string) (initDAG : DAG) (isDonePlanning abortedAtEntry : bool)
    (pre post : list Event) (error : string) (s1 s' : State) :
  run_events pre (run goal initDAG isDonePlanning abortedAtEntry) = Some s1 →
  run_events (EvPlanRejected error :: post) s1 = Some s' →
  phase s' = Finished (ReturnedError error)
  ∧ dag s' = None
  ∧ executing s' = []
  ∧ ∃ rest, sent s'
      = sent s1
        ++ (Packet.error fatal error,
            DAGNodeClass rootPlanId "👸🐝 Queen Bee" "Planning how to achieve your goal" goal)
        :: rest.
Proof.
  intros Hpre H. simpl in H. apply bind_Some in H as (s2 & H2 & Hpost).
  destruct (is_planning s1) eqn:Hp; [|done]. injection H2 as <-.
  destruct (run_events_idle_while_planning _ _ _ Hpre
              (run_idle_while_planning _ _ _ _) Hp) as (Hd & _ & He).
  assert (Hg : WaggleDanceMachine.goal s1 = goal).
  { rewrite (run_events_goal _ _ _ Hpre). unfold run. by destruct (_ && _). }
  unfold planTasks_rejected, initialNodes in Hpost. simpl in Hpost. rewrite Hg in Hpost.
  set (s2 := set_phase _ _) in Hpost.
  assert (Hph2 : phase s2 = Finished (ReturnedError error)) by done.
  assert (Hnp2 : is_planning s2 = false) by done.
  destruct (run_events_finished _ _ _ _ Hph2 Hpost) as (Hph' & _ & _ & Hex').
  destruct (run_events_after_planning _ _ _ Hpost Hnp2) as [Hd' _].
  split_and!; [done|by rewrite Hd'| |].
  - simpl in Hex'. rewrite He in Hex'. by apply sublist_nil_r in Hex'.
  - destruct (run_events_sent _ _ _ Hpost) as (rest & ->). simpl.
    exists rest. by rewrite <- app_assoc.
Qed.

Lemma planning_failure_ends_run_witness :
  phase (planTasks_rejected "planner down" first_failed)
  = Finished (ReturnedError "planner down")
  ∧ dag (planTasks_rejected "planner down" first_failed) = None
  ∧ executing (planTasks_rejected "planner down" first_failed) = []
  ∧ ∃ rest, sent (planTasks_rejected "planner down" first_failed)
      = sent first_failed
        ++ (Packet.error fatal "planner down",
            DAGNodeClass rootPlanId "👸🐝 Queen Bee" "Planning how to achieve your goal" "goal")
        :: rest.
Proof.
  apply (planning_failure_ends_run "goal" emptyDAG false false
           [EvStartFirstTask nodeA planAB; EvFirstTaskRejected nodeA planAB "boom"] []).
  - vm_compute. reflexivity.
  - reflexivity.
Defined.

(** *** Leaving the loop *)

Lemma isGoalReached_true d c :
  isGoalReached d c = true ↔ ∀ node, In node (nodes d) → id node ∈ c.
Proof.
  unfold isGoalReached. rewrite forallb_forall. split.
  - intros H node Hin. by apply (bool_decide_eq_true_1 (id node ∈ c)), H.
  - intros H node Hin. by apply bool_decide_eq_true_2, H.
Qed.

(** X19. [run] returns its results exactly when an iteration finds every node
    of the execution graph completed.  The test comes first in each
    iteration: then neither the abort signal nor a first task still
    executing keeps [run] from returning, and nothing else makes it
    return. *)
Theorem loop_returns_iff_goal_reached (s s' : State) (d : DAG) :
  dag s = Some d →
  apply_event EvLoop s = Some s' →
  (phase s' = Finished Returned ↔ ∀ node, In node (nodes d) → id node ∈ completedTasks s)
  ∧ ((∀ node, In node (nodes d) → id node ∈ completedTasks s) →
     s' = set_phase (Finished Returned) s).
Proof.
  intros Hd Hloop. simpl in Hloop. rewrite Hd in Hloop.
  destruct (phase s) eqn:Hph; try done. injection Hloop as <-.
  rewrite <- isGoalReached_true. unfold loop_step, loop_iteration.
  destruct (isGoalReached d (completedTasks s)); [done|].
  split; [|done]. split; [|done].
  destruct (aborted s); [done|].
  destruct (_ || _); simpl; [by rewrite Hph|].
  destruct (_ && _); [done|]. destruct (head _); simpl; [by rewrite Hph|done].
Qed.

Lemma loop_returns_iff_goal_reached_witness :
  (phase (set_phase (Finished Returned) (run "goal" rootOnly true true)) = Finished Returned
   ↔ ∀ node, In node (nodes rootOnly) →
             id node ∈ completedTasks (run "goal" rootOnly true true))
  ∧ ((∀ node, In node (nodes rootOnly) →
              id node ∈ completedTasks (run "goal" rootOnly true true)) →
     set_phase (Finished Returned) (run "goal" rootOnly true true)
     = set_phase (Finished Returned) (run "goal" rootOnly true true)).
Proof.
  apply (loop_returns_iff_goal_reached (run "goal" rootOnly true true) _ rootOnly).
  - reflexivity.
  - vm_compute. reflexivity.
Defined.

(** *** The result of the optimistic first task *)


(** *** A whole run *)




(** *** A failed task stalls the run *)

Lemma loop_step_lost k d s :
  lost k s → dag s = Some d → (∃ node, In node (nodes d) ∧ id node = k) →
  lost k (loop_step d s).
Proof.
  intros (Hnp & Hnc & Hret & Htodo & Hex & Hfe) Hd (node & Hin & Hid).
  unfold lost, loop_step.
  destruct (loop_iteration _ _ _ _ _) as [|message| |task todo'] eqn:Hit; simpl.
  - exfalso. unfold loop_iteration in Hit.
    destruct (isGoalReached d (completedTasks s)) eqn:Hgoal.
    + apply Hnc. rewrite <- Hid. by apply (proj1 (isGoalReached_true d _) Hgoal).
    + destruct (aborted s); [done|]. destruct (_ || _); [done|].
      destruct (_ && _); [done|]. by destruct (head _).
  - by split_and!.
  - by split_and!.
  - pose proof (loop_iteration_dispatch_inv _ _ _ _ _ _ _ Hit) as (_ & _ & _ & Htask & _).
    apply dispatch_removes_task in Hit as (pre & post & Heq & _ & ->).
    rewrite Heq in Htodo. apply Forall_app in Htodo as [Hpre Hpost].
    apply Forall_cons in Hpost as [Htid Hpost].
    split_and!; try done.
    + apply Forall_app. by split.
    + apply Forall_app. split; [done|]. by constructor.
Qed.

Lemma apply_event_lost k ev s s' d :
  apply_event ev s = Some s' → lost k s →
  dag s = Some d → (∃ node, In node (nodes d) ∧ id node = k) →
  lost k s'.
Proof.
  intros H Hlost Hd Hnode.
  pose proof Hlost as (Hnp & Hnc & Hret & Htodo & Hex & Hfe).
  destruct ev; event_inv H; try congruence.
  - by split_and!.
  - match goal with Hb : is_planning s && _ = true |- _ =>
      rewrite Hnp in Hb; discriminate Hb end.
  - match goal with Hs : settle _ _ = Some _ |- _ =>
      destruct (settle_Forall _ _ _ _ Hs Hfe) as [Hk Hfe'] end.
    match goal with |- lost _ (startFirstTask_resolved ?t ?d0 ?r ?s0) =>
      pose proof (startFirstTask_resolved_frozen t d0 r s0) as (_ & Hph & _);
      pose proof (startFirstTask_resolved_other t d0 r s0) as (_ & He & Hf & _);
      pose proof (startFirstTask_resolved_completedTasks t d0 r s0) as Hc;
      assert (Ht : toDoNodes (startFirstTask_resolved t d0 r s0) = toDoNodes s0)
    end.
    { unfold startFirstTask_resolved. simpl.
      destruct (find_first _ _); [|done]. destruct (falsy result); [done|].
      by destruct result. }
    unfold lost, is_planning in *. rewrite Hph, He, Hf, Hc, Ht. simpl. by split_and!.
  - match goal with Hs : settle _ _ = Some _ |- _ =>
      destruct (settle_Forall _ _ _ _ Hs Hfe) as [Hk Hfe'] end.
    by split_and!.
  - by apply loop_step_lost.
  - match goal with Hs : settle _ _ = Some _ |- _ =>
      destruct (settle_Forall _ _ _ _ Hs Hex) as [Hk Hex'] end.
    unfold lost. simpl. split_and!; try done.
    intros [Hin|Hin%elem_of_singleton]%elem_of_union; [done|]. by apply Hk.
  - match goal with Hs : settle _ _ = Some _ |- _ =>
      destruct (settle_Forall _ _ _ _ Hs Hex) as [Hk Hex'] end.
    by split_and!.
Qed.

(** X22. A node of the execution graph that is neither completed, nor to do,
    nor executing is never completed: whatever happens next its id stays
    out of [completedTasks] and [run] never returns its results.  This is
    where a node is left when its execution fails. *)
Theorem lost_node_stalls_run (k : string) (s s' : State) (d : DAG) (evs : list Event) :
  lost k s →
  dag s = Some d →
  (∃ node, In node (nodes d) ∧ id node = k) →
  run_events evs s = Some s' →
  (k ∉ completedTasks s') ∧ phase s' ≠ Finished Returned.
Proof.
  intros Hlost Hd Hnode Hrun.
  assert (Hlost' : lost k s').
  { revert s Hlost Hd Hrun. induction evs as [|ev evs IH]; intros s Hlost Hd; simpl.
    - by intros [= ->].
    - intros H. apply bind_Some in H as (s1 & H1 & H2).
      pose proof Hlost as (Hnp & _).
      destruct (apply_event_after_planning _ _ _ H1 Hnp) as [Hd1 _].
      apply (IH s1); [|congruence|done]. by apply (apply_event_lost k ev s s1 d). }
  by destruct Hlost' as (_ & Hnc & Hret & _).
Qed.

Lemma lost_node_stalls_run_witness :
  ("1-0" ∉ completedTasks failedA) ∧ phase failedA ≠ Finished Returned.
Proof.
  apply (lost_node_stalls_run "1-0" failedA failedA (hookup "goal" planA) [EvLoop; EvLoop]).
  - unfold lost. split_and!; [done| |done|..].
    + apply (bool_decide_eq_false_1 ("1-0" ∈ completedTasks failedA)). vm_compute. reflexivity.
    + vm_compute. repeat constructor. discriminate.
    + vm_compute. constructor.
    + vm_compute. constructor.
  - reflexivity.
  - exists nodeA. split; [right; by left|done].
  - vm_compute. reflexivity.
Defined.

End SchedulerProps.

(** ** The first task in [TaskExecutor] *)

Module TaskExecutorProps.
Import Graph Scenarios.

Lemma executor_apply_event_aborted ev (ts ts' : TaskExecutor.State) :
  TaskExecutor.apply_event ev ts = Some ts' →
  (TaskExecutor.aborted ts = true → TaskExecutor.aborted ts' = true)
  ∧ ((TaskExecutor.rejectedFirstTask ts ≠ [] → TaskExecutor.aborted ts = true) →
     TaskExecutor.rejectedFirstTask ts' ≠ [] → TaskExecutor.aborted ts' = true).
Proof.
  destruct ev; simpl.
  - intros [= <-]. done.
  - intros [= <-]. unfold TaskExecutor.startFirstTask. simpl.
    destruct (TaskExecutor.aborted ts); simpl; [done|]. split; [done|]. tauto.
  - intros H. apply bind_Some in H as (ts1 & H1 & [= <-]).
    apply fmap_Some in H1 as (l & _ & ->). simpl. split; [done|]. tauto.
  - intros H. apply bind_Some in H as (ts1 & H1 & [= <-]).
    by apply fmap_Some in H1 as (l & _ & ->).
Qed.

Lemma executor_run_events_aborted evs (ts ts' : TaskExecutor.State) :
  TaskExecutor.run_events evs ts = Some ts' →
  (TaskExecutor.aborted ts = true → TaskExecutor.aborted ts' = true)
  ∧ ((TaskExecutor.rejectedFirstTask ts ≠ [] → TaskExecutor.aborted ts = true) →
     TaskExecutor.rejectedFirstTask ts' ≠ [] → TaskExecutor.aborted ts' = true).
Proof.
  revert ts. induction evs as [|ev evs IH]; intros ts; simpl.
  - by intros [= ->].
  - intros H. apply bind_Some in H as (ts1 & H1 & H2).
    destruct (executor_apply_event_aborted _ _ _ H1) as [Ha1 Hr1].
    destruct (IH _ H2) as [Ha' Hr']. split; [tauto|].
    intros Hinv. apply Hr'. by apply Hr1.
Qed.

(** X23. In [TaskExecutor], a first task never fails quietly: starting from an
    executor that has rejected nothing, whenever [rejectFirstTask] has been
    called the abort signal is set. *)
Theorem executor_rejection_implies_abort
    (ts ts' : TaskExecutor.State) (evs : list TaskExecutor.Event) :
  TaskExecutor.rejectedFirstTask ts = [] →
  TaskExecutor.run_events evs ts = Some ts' →
  TaskExecutor.rejectedFirstTask ts' ≠ [] →
  TaskExecutor.aborted ts' = true.
Proof.
  intros Hfresh Hrun. apply (executor_run_events_aborted _ _ _ Hrun).
  by rewrite Hfresh.
Qed.

Lemma executor_rejection_implies_abort_witness :
  TaskExecutor.aborted executor_failed = true.
Proof.
  apply (executor_rejection_implies_abort executor0 executor_failed
           [TaskExecutor.EvStartFirstTask nodeA planAB;
            TaskExecutor.EvFirstTaskRejected nodeA planAB "boom"]).
  - reflexivity.
  - vm_compute. reflexivity.
  - discriminate.
Defined.

(** X24. In [TaskExecutor], once a first task's execution has failed, every
    later call of [startFirstTask] is refused: it still claims the id of
    its task in [completedTasks], but starts no execution, injects no
    packet and calls [rejectFirstTask] with "Signal aborted". *)
Theorem executor_failure_blocks_later_calls
    (ts ts1 ts2 : TaskExecutor.State) (evs : list TaskExecutor.Event)
    (task task2 : DAGNode) (d d2 : DAG) (message : string) :
  TaskExecutor.apply_event (TaskExecutor.EvFirstTaskRejected task d message) ts = Some ts1 →
  TaskExecutor.run_events evs ts1 = Some ts2 →
  TaskExecutor.executing (TaskExecutor.startFirstTask task2 d2 ts2)
  = TaskExecutor.executing ts2
  ∧ TaskExecutor.injected (TaskExecutor.startFirstTask task2 d2 ts2)
    = TaskExecutor.injected ts2
  ∧ TaskExecutor.rejectedFirstTask (TaskExecutor.startFirstTask task2 d2 ts2)
    = TaskExecutor.rejectedFirstTask ts2 ++ ["Signal aborted"]
  ∧ id task2 ∈ TaskExecutor.completedTasks (TaskExecutor.startFirstTask task2 d2 ts2).
Proof.
  intros Hfail Hrun.
  assert (Hab1 : TaskExecutor.aborted ts1 = true).
  { simpl in Hfail. apply bind_Some in Hfail as (ts0 & H0 & [= <-]).
    by apply fmap_Some in H0 as (l & _ & ->). }
  destruct (executor_run_events_aborted _ _ _ Hrun) as [Hab2 _].
  specialize (Hab2 Hab1).
  unfold TaskExecutor.startFirstTask. simpl. rewrite Hab2. simpl.
  split_and!; try done. set_solver.
Qed.

Lemma executor_failure_blocks_later_calls_witness :
  TaskExecutor.executing (TaskExecutor.startFirstTask nodeB planAB executor_failed)
  = TaskExecutor.executing executor_failed
  ∧ TaskExecutor.injected (TaskExecutor.startFirstTask nodeB planAB executor_failed)
    = TaskExecutor.injected executor_failed
  ∧ TaskExecutor.rejectedFirstTask (TaskExecutor.startFirstTask nodeB planAB executor_failed)
    = TaskExecutor.rejectedFirstTask executor_failed ++ ["Signal aborted"]
  ∧ id nodeB ∈ TaskExecutor.completedTasks
                 (TaskExecutor.startFirstTask nodeB planAB executor_failed).
Proof.
  apply (executor_failure_blocks_later_calls
           (TaskExecutor.startFirstTask nodeA planAB executor0) executor_failed
           executor_failed [] nodeA nodeB planAB planAB "boom").
  - vm_compute. reflexivity.
  - reflexivity.
Defined.

End TaskExecutorProps.

(** ** Goal pages: placeholder rotation, tab labels, page state *)

Module GoalUiProps.

Lemma nextIndex_mod (len k : nat) :
  (0 < len)%nat → nextIndex len (k mod len) = (S k mod len)%nat.
Proof.
  intros Hlen. unfold nextIndex.
  pose proof (Nat.mod_upper_bound k len ltac:(lia)) as Hlt.
  pose proof (Nat.div_mod_eq k len) as Hk.
  destruct (decide (len ≤ k mod len + 1)%nat) as [Hle|Hgt].
  - rewrite bool_decide_eq_true_2 by done.
    apply (Nat.mod_unique (S k) len (S (k / len)) 0); lia.
  - rewrite bool_decide_eq_false_2 by done.
    apply (Nat.mod_unique (S k) len (k / len) (k mod len + 1)); lia.
Qed.

(** X25. The index of the shown example prompt or placeholder, advanced every
    five seconds from 0, walks through the array in order and wraps
    around: after [k] ticks it is [k mod len], always a valid index of a
    non-empty array. *)
Theorem nextIndex_cycles (len k : nat) :
  (0 < len)%nat →
  Nat.iter k (nextIndex len) 0%nat = (k mod len)%nat
  ∧ (Nat.iter k (nextIndex len) 0 < len)%nat.
Proof.
  intros Hlen.
  assert (H : Nat.iter k (nextIndex len) 0%nat = (k mod len)%nat).
  { induction k as [|k IH]; simpl.
    - by rewrite Nat.Div0.mod_0_l.
    - rewrite IH. by apply nextIndex_mod. }
  split; [done|]. rewrite H. apply Nat.mod_upper_bound. lia.
Qed.

Lemma nextIndex_cycles_witness :
  Nat.iter 7 (nextIndex 3) 0%nat = (7 mod 3)%nat
  ∧ (Nat.iter 7 (nextIndex 3) 0 < 3)%nat.
Proof. apply (nextIndex_cycles 3 7). lia. Defined.


Lemma findIndex_spec {A} (p : A → bool) (l : list A) :
  (findIndex p l = (-1)%Z ∧ Forall (λ x, p x = false) l)
  ∨ (∃ pre x post, l = pre ++ x :: post ∧ Forall (λ y, p y = false) pre ∧ p x = true
                   ∧ findIndex p l = Z.of_nat (length pre)).
Proof.
  induction l as [|x l IH]; simpl.
  - left. split; [done|constructor].
  - destruct (p x) eqn:Hx.
    + right. exists [], x, l. by split_and!.
    + destruct IH as [[-> Hall]|(pre & y & post & -> & Hpre & Hy & ->)].
      * left. split; [done|]. by constructor.
      * right. exists (x :: pre), y, post. split_and!; try done; [by constructor|].
        simpl length. destruct (Z.ltb_spec (Z.of_nat (length pre)) 0); lia.
Qed.

(** X27. The tab marked as current is the first goal whose id is the selected
    goal's id; it is -1, no tab at all, exactly when no goal is selected or
    the selected id is not in the list. *)
Theorem currentTabIndex_spec (goalIds : list string) (selectedGoalId : option string) :
  (currentTabIndex goalIds selectedGoalId = (-1)%Z
   ↔ ∀ goalId, selectedGoalId = Some goalId → goalId ∉ goalIds)
  ∧ (∀ goalId, selectedGoalId = Some goalId → goalId ∈ goalIds →
       ∃ i, currentTabIndex goalIds selectedGoalId = Z.of_nat i
            ∧ goalIds !! i = Some goalId
            ∧ ∀ j, (j < i)%nat → goalIds !! j ≠ Some goalId).
Proof.
  unfold currentTabIndex.
  destruct (findIndex_spec (λ goalId, bool_decide (Some goalId = selectedGoalId)) goalIds)
    as [[Hidx Hall]|(pre & x & post & -> & Hpre & Hx & Hidx)]; rewrite Hidx.
  - assert (Hnone : ∀ goalId, selectedGoalId = Some goalId → goalId ∉ goalIds).
    { intros goalId -> Hin. rewrite Forall_forall in Hall.
      apply Hall in Hin. by apply bool_decide_eq_false in Hin. }
    split; [done|]. intros goalId Hsel Hin. by destruct (Hnone goalId Hsel).
  - apply bool_decide_eq_true in Hx. split.
    + split; [lia|]. intros Hnone. exfalso.
      apply (Hnone x); [done|]. set_solver.
    + intros goalId Hsel _. assert (goalId = x) as -> by congruence.
      exists (length pre). split_and!; [done| |].
      * by rewrite list_lookup_middle.
      * intros j Hj Hlook. rewrite lookup_app_l in Hlook by done.
        rewrite Forall_forall in Hpre.
        apply list_elem_of_lookup_2, Hpre, bool_decide_eq_false in Hlook. congruence.
Qed.

Lemma trimStart_nil (s : JsString) : trimStart s = [] ↔ blank s.
Proof.
  unfold blank. induction s as [|c s IH]; simpl.
  - split; [constructor|done].
  - destruct (isWhiteSpace c) eqn:Hc.
    + rewrite IH. split; [by constructor|]. by inversion 1.
    + split; [done|]. inversion 1; congruence.
Qed.

Lemma trimStart_blank (s : JsString) : blank (trimStart s) → trimStart s = [].
Proof.
  induction s as [|c s IH]; simpl; [done|].
  destruct (isWhiteSpace c) eqn:Hc; [done|]. inversion 1; congruence.
Qed.

Lemma trim_nil (s : JsString) : trim s = [] ↔ blank s.
Proof.
  unfold trim. rewrite <- trimStart_nil. split.
  - intros H. apply (f_equal reverse) in H. rewrite reverse_involutive in H.
    change (reverse []) with (@nil N) in H.
    apply trimStart_nil in H. unfold blank in H. rewrite Forall_reverse in H.
    by apply trimStart_blank.
  - intros ->. done.
Qed.

(** X28. The goal page shows the goal input for the slugs "" and "/", and
    otherwise the graph exactly when a goal is selected that has an
    execution or a user id with a non-blank character.  The missing
    parentheses around [??] in the source do not change this. *)
Theorem pageState_graph_iff (slug : Slug) (selectedGoal : option SelectedGoal) :
  pageState (cleanedSlug slug) selectedGoal = graph
  ↔ cleanedSlug slug ≠ Some (js "") ∧ cleanedSlug slug ≠ Some (js "/")
    ∧ ∃ g, selectedGoal = Some g
           ∧ ((∃ n, executionsLength g = Some n ∧ n ≠ 0%nat) ∨ ¬ blank (userId g)).
Proof.
  unfold pageState.
  destruct (decide (cleanedSlug slug = Some (js ""))) as [He|He].
  { rewrite (bool_decide_eq_true_2 _ He). simpl. split; [done|]. tauto. }
  rewrite (bool_decide_eq_false_2 _ He).
  destruct (decide (cleanedSlug slug = Some (js "/"))) as [Hs|Hs].
  { rewrite (bool_decide_eq_true_2 _ Hs). simpl. split; [done|]. tauto. }
  rewrite (bool_decide_eq_false_2 _ Hs). simpl.
  destruct selectedGoal as [g|]; simpl.
  2:{ split; [done|]. by intros (_ & _ & g & [=] & _). }
  assert (Huser : truthy (JsNumber (length (trim (userId g)))) = true ↔ ¬ blank (userId g)).
  { simpl. rewrite negb_true_iff, bool_decide_eq_false, <- trim_nil.
    by destruct (trim (userId g)). }
  simpl in Huser.
  destruct (negb (bool_decide (length (trim (userId g)) = 0%nat))) eqn:Hu.
  - assert (Hb : ¬ blank (userId g)) by (by apply Huser).
    rewrite orb_true_r. split; [|done].
    intros _. split_and!; [done..|]. exists g. split; [done|]. by right.
  - assert (Hb : ¬ ¬ blank (userId g)) by (rewrite <- Huser; congruence).
    rewrite orb_false_r.
    destruct (executionsLength g) as [n|] eqn:Hexe; simpl.
    + destruct (decide (n = 0%nat)) as [->|Hnz]; simpl.
      * split; [done|].
        intros (_ & _ & g' & [= <-] & [(n & Hn & Hnz)|Hnb]); [congruence|done].
      * rewrite (bool_decide_eq_false_2 _ Hnz). simpl. split; [|done].
        intros _. split_and!; [done..|]. exists g. split; [done|]. left. by exists n.
    + split; [done|].
      intros (_ & _ & g' & [= <-] & [(n & Hn & Hnz)|Hnb]); [congruence|done].
Qed.

End GoalUiProps.
